(** * oca-api: a promise-based client of the OCA e-Pak web service

    A shallow embedding of [dist/index.js].  The module exports five
    operations; each one issues a single HTTP GET, hands the response to
    [parseResponse], pulls the rows out of the parsed document and maps every
    row to a flat record, with one [catch] handler at the end of the chain.

    The network ([node-fetch]), the XML parser ([xml2js]) and the wording of
    the engine's [TypeError]s are not part of the module: they are section
    variables.  Everything else is an executable definition. *)

From Stdlib Require Import String Ascii.
From Stdlib Require Import List NArith Bool Arith Lia.
Import ListNotations.

Set Implicit Arguments.
Set Warnings "-register-all".

(** ** JavaScript strings

    A JavaScript string is a sequence of UTF-16 code units.  Literals of the
    source are ASCII and are written [lit "..."]. *)

Definition jsstring := list N.

Definition lit (s : string) : jsstring :=
  map N_of_ascii (list_ascii_of_string s).

Fixpoint str_eqb (a b : jsstring) : bool :=
  match a, b with
  | [], [] => true
  | x :: a', y :: b' => N.eqb x y && str_eqb a' b'
  | _, _ => false
  end.

(** The characters removed by [String.prototype.trim]: ECMAScript's
    WhiteSpace and LineTerminator productions. *)
Definition isWhiteSpace (c : N) : bool :=
  match c with
  | 9 | 10 | 11 | 12 | 13 | 32 | 160 => true
  | 5760 => true
  | 8192 | 8193 | 8194 | 8195 | 8196 | 8197
  | 8198 | 8199 | 8200 | 8201 | 8202 => true
  | 8232 | 8233 | 8239 | 8287 | 12288 | 65279 => true
  | _ => false
  end%N.

Fixpoint trimStart (s : jsstring) : jsstring :=
  match s with
  | [] => []
  | c :: s' => if isWhiteSpace c then trimStart s' else s
  end.

Definition trimEnd (s : jsstring) : jsstring := rev (trimStart (rev s)).

(** [s.trim()] *)
Definition trim (s : jsstring) : jsstring := trimEnd (trimStart s).

(** What "surrounding whitespace removed, internal whitespace preserved"
    means: [t] is the part of [s] between its first and its last character
    that is not whitespace. *)
Definition isTrimOf (s t : jsstring) : Prop :=
  exists pre post,
    s = pre ++ t ++ post /\
    Forall (fun c => isWhiteSpace c = true) pre /\
    Forall (fun c => isWhiteSpace c = true) post /\
    (forall c t', t = c :: t' -> isWhiteSpace c = false) /\
    (forall c t', t = t' ++ [c] -> isWhiteSpace c = false).

(** ** Values

    The values that flow through the module: the documents [xml2js] builds
    (strings, arrays, objects; [null] for an empty input) and the records the
    operations return.  An object is the list of its own properties in
    insertion order; the first binding of a key is the one that is read. *)

Inductive value : Type :=
| VUndefined
| VNull
| VStr (s : jsstring)
| VArr (items : list value)
| VObj (props : list (jsstring * value)).

Definition isNullish (v : value) : bool :=
  match v with
  | VUndefined | VNull => true
  | _ => false
  end.

Fixpoint lookup (k : jsstring) (props : list (jsstring * value)) : option value :=
  match props with
  | [] => None
  | (k', v) :: rest => if str_eqb k' k then Some v else lookup k rest
  end.

(** Canonical array indices: ["0"], or decimal digits without a leading
    zero. *)
Definition digit (c : N) : option nat :=
  if (48 <=? c)%N && (c <=? 57)%N then Some (N.to_nat (c - 48)) else None.

Fixpoint digits (s : jsstring) (acc : nat) : option nat :=
  match s with
  | [] => Some acc
  | c :: s' =>
      match digit c with
      | Some d => digits s' (10 * acc + d)
      | None => None
      end
  end.

Definition arrayIndex (k : jsstring) : option nat :=
  match k with
  | [] => None
  | [c] => digit c
  | c :: _ => if (c =? 48)%N then None else digits k 0
  end.

(** The value of [object[k]]; on [undefined] and [null], where the read
    throws, see [member].  The keys the module reads are element names and
    the index [0]; none of them names a built-in member ([length], [map],
    ...), so a key that is neither an own property nor an index reads as
    [undefined]. *)
Definition getProp (object : value) (k : jsstring) : value :=
  match object with
  | VUndefined | VNull => VUndefined
  | VStr s =>
      match arrayIndex k with
      | Some i => match nth_error s i with Some c => VStr [c] | None => VUndefined end
      | None => VUndefined
      end
  | VArr items =>
      match arrayIndex k with
      | Some i => nth i items VUndefined
      | None => VUndefined
      end
  | VObj props =>
      match lookup k props with
      | Some v => v
      | None => VUndefined
      end
  end.

(** [k in Object(object)] *)
Definition hasProperty (object : value) (k : jsstring) : bool :=
  match object with
  | VUndefined | VNull => false
  | VStr s => match arrayIndex k with Some i => i <? length s | None => false end
  | VArr items => match arrayIndex k with Some i => i <? length items | None => false end
  | VObj props => match lookup k props with Some _ => true | None => false end
  end.

(** ** lodash [get]

    [stringToPath] splits a path at [.], [[] and [[]]; this covers dotted
    names and bracketed indices, the two forms the module's path uses. *)
Definition isSeparator (c : N) : bool :=
  ((c =? 46) || (c =? 91) || (c =? 93))%N.

Definition flush (cur : jsstring) (acc : list jsstring) : list jsstring :=
  match cur with
  | [] => acc
  | _ => rev cur :: acc
  end.

Fixpoint splitPath (s : jsstring) (cur : jsstring) (acc : list jsstring)
  : list jsstring :=
  match s with
  | [] => rev (flush cur acc)
  | c :: s' =>
      if isSeparator c then splitPath s' [] (flush cur acc)
      else splitPath s' (c :: cur) acc
  end.

Definition stringToPath (s : jsstring) : list jsstring := splitPath s [] [].

(** [castPath]: a path that is itself a property of the object is used as a
    single key. *)
Definition castPath (path : jsstring) (object : value) : list jsstring :=
  if hasProperty object path then [path] else stringToPath path.

(** The loop of [baseGet]: it stops at the first [undefined] or [null]. *)
Fixpoint walk (object : value) (path : list jsstring) : value :=
  match path with
  | [] => object
  | k :: rest =>
      if isNullish object then VUndefined else walk (getProp object k) rest
  end.

Definition baseGet (object : value) (path : list jsstring) : value :=
  match path with
  | [] => VUndefined
  | _ => walk object path
  end.

Definition get (object : value) (path : jsstring) (defaultValue : value) : value :=
  let result :=
    if isNullish object then VUndefined
    else baseGet object (castPath path object) in
  match result with
  | VUndefined => defaultValue
  | _ => result
  end.

(** ** [getDataFromResponse] *)

Definition tablePath : jsstring :=
  lit "DataSet.diffgr:diffgram[0].NewDataSet[0].Table".

Definition tableSegments : list jsstring :=
  [lit "DataSet"; lit "diffgr:diffgram"; lit "0";
   lit "NewDataSet"; lit "0"; lit "Table"].

Definition getDataFromResponse (json : value) : value :=
  get json tablePath (VArr []).

(** The document has the rows [rows] at [DataSet], [diffgr:diffgram] (first
    occurrence), [NewDataSet] (first occurrence), [Table].  No element is
    named by the whole path text, which is not an XML name. *)
Definition encodesTable (json : value) (rows : list value) : Prop :=
  hasProperty json tablePath = false /\
  exists dg dgs nds ndss,
    getProp (getProp json (lit "DataSet")) (lit "diffgr:diffgram") = VArr (dg :: dgs) /\
    getProp dg (lit "NewDataSet") = VArr (nds :: ndss) /\
    getProp nds (lit "Table") = VArr rows.

(** Segment number [k] (from 1) of the fixed path is missing: following the
    first [k] segments ends on [undefined]. *)
Definition segmentMissing (json : value) (k : nat) : Prop :=
  1 <= k <= List.length tableSegments /\
  walk json (firstn k tableSegments) = VUndefined.

(** ** Errors, completions and promises *)

(** An [Error] object, as far as the module can tell one from another. *)
Record error : Type := { name : jsstring; message : jsstring }.

(** [new Error(msg)] with a string argument. *)
Definition newError (msg : jsstring) : error :=
  {| name := lit "Error"; message := msg |}.

(** [Error.prototype.toString], which is what [String(err)] runs. *)
Definition errToString (e : error) : jsstring :=
  match name e, message e with
  | [], msg => msg
  | nm, [] => nm
  | nm, msg => nm ++ lit ": " ++ msg
  end.

(** The ways an expression of the module can raise a [TypeError]. *)
Inductive type_fault : Type :=
| ReadOfNullish (base : value) (k : jsstring)
| DestructureOfNullish (base : value)
| NotAFunction (receiver : value) (k : jsstring).

(** Outcome of evaluating an expression: a value, or a [throw]. *)
Inductive completion (A : Type) : Type :=
| Normal (a : A)
| Throw (e : error).
Arguments Throw {A} e.

Definition bind {A B} (c : completion A) (k : A -> completion B) : completion B :=
  match c with
  | Normal a => k a
  | Throw e => Throw e
  end.

Notation "x <- c ;; k" := (bind c (fun x => k))
  (at level 61, c at next level, right associativity).

(** A promise, seen once the event loop has run: settled one way or the
    other, or still pending because the request never completed. *)
Inductive promise (A : Type) : Type :=
| Resolved (a : A)
| Rejected (e : error)
| Pending.
Arguments Rejected {A} e.
Arguments Pending {A}.

(** [p.then(f)] for an [f] that returns a promise. *)
Definition then_ {A B} (p : promise A) (f : A -> promise B) : promise B :=
  match p with
  | Resolved a => f a
  | Rejected e => Rejected e
  | Pending => Pending
  end.

Definition settle {A} (c : completion A) : promise A :=
  match c with
  | Normal a => Resolved a
  | Throw e => Rejected e
  end.

(** [p.then(f)] for an [f] that returns a plain value or throws. *)
Definition thenC {A B} (p : promise A) (f : A -> completion B) : promise B :=
  then_ p (fun a => settle (f a)).

(** [p.then(f)] for an [f] that cannot throw. *)
Definition thenV {A B} (p : promise A) (f : A -> B) : promise B :=
  then_ p (fun a => Resolved (f a)).

(** [p.catch(h)] *)
Definition catch_ {A} (p : promise A) (h : error -> promise A) : promise A :=
  match p with
  | Rejected e => h e
  | _ => p
  end.

(** The response object of [node-fetch]: [ok] is true for a status in
    200..299, [text()] is a promise of the body. *)
Record response : Type := { status : N; text : promise jsstring }.

Definition ok (r : response) : bool :=
  ((200 <=? status r) && (status r <? 300))%N.

(** ** Arguments of the operations *)

Module ListEnviosArgs.
Record t : Type := { cuit : jsstring; fechaDesde : jsstring; fechaHasta : jsstring }.
End ListEnviosArgs.

Module TarifarArgs.
Record t : Type :=
  { operativa : jsstring; cuit : jsstring; pesoTotal : jsstring;
    volumenTotal : jsstring; codigoPostalOrigen : jsstring;
    codigoPostalDestino : jsstring; cantidadPaquetes : jsstring;
    valorDeclarado : jsstring }.
End TarifarArgs.

Module LocalidadesArgs.
Record t : Type := { idProvincia : jsstring }.
End LocalidadesArgs.

(** [nroDocumentoCliente] and [cuit] may be left out ([None]). *)
Module TrackingArgs.
Record t : Type :=
  { pieza : jsstring; nroDocumentoCliente : option jsstring;
    cuit : option jsstring }.
End TrackingArgs.

Inductive operation : Type :=
| ListEnvios (a : ListEnviosArgs.t)
| TarifarEnvioCorporativo (a : TarifarArgs.t)
| GetProvincias
| GetLocalidadesByProvincia (a : LocalidadesArgs.t)
| TrackingPieza (a : TrackingArgs.t).

(** A default parameter value: used when the argument is [undefined]. *)
Definition orDefault (arg : option jsstring) (d : jsstring) : jsstring :=
  match arg with
  | Some s => s
  | None => d
  end.

Definition baseURL : jsstring :=
  lit "http://webservice.oca.com.ar/epak_tracking/Oep_TrackEPak.asmx".

(** ** The module *)

Section Client.

(** [fetch(url)]: the network's answer to a GET of [url]. *)
Variable fetch : jsstring -> promise response.

(** [parseXML(text, callback)]: the callback receives an error ([inl]) or
    the parsed document ([inr]). *)
Variable parseXML : jsstring -> error + value.

(** The engine's message for each kind of [TypeError]. *)
Variable typeErrorText : type_fault -> jsstring.

Definition typeError (f : type_fault) : error :=
  {| name := lit "TypeError"; message := typeErrorText f |}.

(** [base.k] and [base[k]] *)
Definition member (base : value) (k : jsstring) : completion value :=
  if isNullish base then Throw (typeError (ReadOfNullish base k))
  else Normal (getProp base k).

(** [const { ... } = base]: only the object itself is checked. *)
Definition destructure (base : value) : completion value :=
  if isNullish base then Throw (typeError (DestructureOfNullish base))
  else Normal base.

(** [Array.prototype.map]: the callback runs on the items from left to
    right and the first [throw] ends the call. *)
Fixpoint mapM (f : value -> completion value) (items : list value)
  : completion (list value) :=
  match items with
  | [] => Normal []
  | x :: rest =>
      y <- f x ;;
      ys <- mapM f rest ;;
      Normal (y :: ys)
  end.

(** [receiver.map(f)] *)
Definition callMap (receiver : value) (f : value -> completion value)
  : completion value :=
  match receiver with
  | VUndefined | VNull => Throw (typeError (ReadOfNullish receiver (lit "map")))
  | VArr items => ys <- mapM f items ;; Normal (VArr ys)
  | _ => Throw (typeError (NotAFunction receiver (lit "map")))
  end.

(** [receiver.trim()] *)
Definition callTrim (receiver : value) : completion value :=
  match receiver with
  | VUndefined | VNull => Throw (typeError (ReadOfNullish receiver (lit "trim")))
  | VStr s => Normal (VStr (trim s))
  | _ => Throw (typeError (NotAFunction receiver (lit "trim")))
  end.

Definition parseResponse (result : response) : promise value :=
  if negb (ok result) then
    then_ (text result) (fun error => Rejected (newError error))
  else
    then_ (text result) (fun xmlResult =>
      match parseXML xmlResult with
      | inl err => Rejected err
      | inr json => Resolved json
      end).

(** [err => { throw new Error(err); }] *)
Definition rethrow (err : error) : promise value :=
  Rejected (newError (errToString err)).

(** *** listEnvios *)

Definition listEnvios_request (a : ListEnviosArgs.t) : jsstring :=
  let URL := baseURL ++ lit "/List_Envios" in
  let params :=
    lit "cuit=" ++ ListEnviosArgs.cuit a
    ++ lit "&fechaDesde=" ++ ListEnviosArgs.fechaDesde a
    ++ lit "&fechaHasta=" ++ ListEnviosArgs.fechaHasta a in
  URL ++ lit "?" ++ params.

Definition listEnvios_row (elem : value) : completion value :=
  NroProducto <- member elem (lit "NroProducto") ;;
  nroProducto <- member NroProducto (lit "0") ;;
  NumeroEnvio <- member elem (lit "NumeroEnvio") ;;
  numeroEnvio <- member NumeroEnvio (lit "0") ;;
  Normal (VObj [(lit "nroProducto", nroProducto);
                (lit "numeroEnvio", numeroEnvio)]).

Definition listEnvios_pipeline (a : ListEnviosArgs.t) : promise value :=
  thenC (thenV (then_ (fetch (listEnvios_request a)) parseResponse)
               getDataFromResponse)
        (fun list => callMap list listEnvios_row).

Definition listEnvios (a : ListEnviosArgs.t) : promise value :=
  catch_ (listEnvios_pipeline a) rethrow.

(** *** tarifarEnvioCorporativo *)

Definition tarifarEnvioCorporativo_request (a : TarifarArgs.t) : jsstring :=
  let URL := baseURL ++ lit "/Tarifar_Envio_Corporativo" in
  let params :=
    lit "cuit=" ++ TarifarArgs.cuit a
    ++ lit "&operativa=" ++ TarifarArgs.operativa a
    ++ lit "&pesoTotal=" ++ TarifarArgs.pesoTotal a
    ++ lit "&volumenTotal=" ++ TarifarArgs.volumenTotal a
    ++ lit "&codigoPostalOrigen=" ++ TarifarArgs.codigoPostalOrigen a
    ++ lit "&codigoPostalDestino=" ++ TarifarArgs.codigoPostalDestino a
    ++ lit "&cantidadPaquetes=" ++ TarifarArgs.cantidadPaquetes a
    ++ lit "&valorDeclarado=" ++ TarifarArgs.valorDeclarado a in
  URL ++ lit "?" ++ params.

Definition tarifarEnvioCorporativo_row (elem : value) : completion value :=
  obj <- destructure elem ;;
  let Tarifador := getProp obj (lit "Tarifador") in
  let Precio := getProp obj (lit "Precio") in
  let idTiposervicio := getProp obj (lit "idTiposervicio") in
  let Ambito := getProp obj (lit "Ambito") in
  let PlazoEntrega := getProp obj (lit "PlazoEntrega") in
  let Adicional := getProp obj (lit "Adicional") in
  let Total := getProp obj (lit "Total") in
  tarifador <- member Tarifador (lit "0") ;;
  precio <- member Precio (lit "0") ;;
  idTiposervicio0 <- member idTiposervicio (lit "0") ;;
  ambito <- member Ambito (lit "0") ;;
  plazoEntrega <- member PlazoEntrega (lit "0") ;;
  adicional <- member Adicional (lit "0") ;;
  total <- member Total (lit "0") ;;
  Normal (VObj [(lit "tarifador", tarifador);
                (lit "precio", precio);
                (lit "idTiposervicio", idTiposervicio0);
                (lit "ambito", ambito);
                (lit "plazoEntrega", plazoEntrega);
                (lit "adicional", adicional);
                (lit "total", total)]).

Definition tarifarEnvioCorporativo_pipeline (a : TarifarArgs.t) : promise value :=
  thenC (thenV (then_ (fetch (tarifarEnvioCorporativo_request a)) parseResponse)
               getDataFromResponse)
        (fun list => callMap list tarifarEnvioCorporativo_row).

Definition tarifarEnvioCorporativo (a : TarifarArgs.t) : promise value :=
  catch_ (tarifarEnvioCorporativo_pipeline a) rethrow.

(** *** getProvincias *)

Definition getProvincias_request : jsstring := baseURL ++ lit "/GetProvincias".

Definition getProvincias_row (elem : value) : completion value :=
  obj <- destructure elem ;;
  let IdProvincia := getProp obj (lit "IdProvincia") in
  let Descripcion := getProp obj (lit "Descripcion") in
  idProvincia <- member IdProvincia (lit "0") ;;
  descripcion0 <- member Descripcion (lit "0") ;;
  descripcion <- callTrim descripcion0 ;;
  Normal (VObj [(lit "idProvincia", idProvincia);
                (lit "descripcion", descripcion)]).

Definition getProvincias_pipeline : promise value :=
  thenC (thenV (then_ (fetch getProvincias_request) parseResponse)
               getDataFromResponse)
        (fun list => callMap list getProvincias_row).

Definition getProvincias : promise value :=
  catch_ getProvincias_pipeline rethrow.

(** *** getLocalidadesByProvincia *)

Definition getLocalidadesByProvincia_request (a : LocalidadesArgs.t) : jsstring :=
  let URL :=
    lit "http://webservice.oca.com.ar/oep_tracking/Oep_Track.asmx/GetLocalidadesByProvincia" in
  let params := lit "idProvincia=" ++ LocalidadesArgs.idProvincia a in
  URL ++ lit "?" ++ params.

Definition getLocalidadesByProvincia_place (place : value) : completion value :=
  Nombre <- member place (lit "Nombre") ;;
  member Nombre (lit "0").

Definition getLocalidadesByProvincia_names (json : value) : completion value :=
  Localidades <- member json (lit "Localidades") ;;
  Provincia <- member Localidades (lit "Provincia") ;;
  callMap Provincia getLocalidadesByProvincia_place.

Definition getLocalidadesByProvincia_pipeline (a : LocalidadesArgs.t)
  : promise value :=
  thenC (then_ (fetch (getLocalidadesByProvincia_request a)) parseResponse)
        getLocalidadesByProvincia_names.

Definition getLocalidadesByProvincia (a : LocalidadesArgs.t) : promise value :=
  catch_ (getLocalidadesByProvincia_pipeline a) rethrow.

(** *** trackingPieza *)

Definition trackingPieza_request (a : TrackingArgs.t) : jsstring :=
  let pieza := TrackingArgs.pieza a in
  let nroDocumentoCliente := orDefault (TrackingArgs.nroDocumentoCliente a) (lit "0") in
  let cuit := orDefault (TrackingArgs.cuit a) (lit "0") in
  let URL := baseURL ++ lit "/Tracking_Pieza" in
  let params :=
    lit "pieza=" ++ pieza
    ++ lit "&nroDocumentoCliente=" ++ nroDocumentoCliente
    ++ lit "&cuit=" ++ cuit in
  URL ++ lit "?" ++ params.

Definition trackingPieza_row (elem : value) : completion value :=
  obj <- destructure elem ;;
  let NumeroEnvio := getProp obj (lit "NumeroEnvio") in
  let Descripcion_Motivo := getProp obj (lit "Descripcion_Motivo") in
  let Desdcripcion_Estado := getProp obj (lit "Desdcripcion_Estado") in
  let SUC := getProp obj (lit "SUC") in
  let fecha := getProp obj (lit "fecha") in
  numeroEnvio <- member NumeroEnvio (lit "0") ;;
  descripcion_Motivo <- member Descripcion_Motivo (lit "0") ;;
  desdcripcion_Estado <- member Desdcripcion_Estado (lit "0") ;;
  suc <- member SUC (lit "0") ;;
  fecha0 <- member fecha (lit "0") ;;
  Normal (VObj [(lit "numeroEnvio", numeroEnvio);
                (lit "descripcion_Motivo", descripcion_Motivo);
                (lit "desdcripcion_Estado", desdcripcion_Estado);
                (lit "suc", suc);
                (lit "fecha", fecha0)]).

Definition trackingPieza_pipeline (a : TrackingArgs.t) : promise value :=
  thenC (thenV (then_ (fetch (trackingPieza_request a)) parseResponse)
               getDataFromResponse)
        (fun list => callMap list trackingPieza_row).

Definition trackingPieza (a : TrackingArgs.t) : promise value :=
  catch_ (trackingPieza_pipeline a) rethrow.

(** *** The exported operations, taken together *)

Definition requestURL (op : operation) : jsstring :=
  match op with
  | ListEnvios a => listEnvios_request a
  | TarifarEnvioCorporativo a => tarifarEnvioCorporativo_request a
  | GetProvincias => getProvincias_request
  | GetLocalidadesByProvincia a => getLocalidadesByProvincia_request a
  | TrackingPieza a => trackingPieza_request a
  end.

(** The chain of an operation up to, and without, its [catch]. *)
Definition pipeline (op : operation) : promise value :=
  match op with
  | ListEnvios a => listEnvios_pipeline a
  | TarifarEnvioCorporativo a => tarifarEnvioCorporativo_pipeline a
  | GetProvincias => getProvincias_pipeline
  | GetLocalidadesByProvincia a => getLocalidadesByProvincia_pipeline a
  | TrackingPieza a => trackingPieza_pipeline a
  end.

Definition call (op : operation) : promise value :=
  match op with
  | ListEnvios a => listEnvios a
  | TarifarEnvioCorporativo a => tarifarEnvioCorporativo a
  | GetProvincias => getProvincias
  | GetLocalidadesByProvincia a => getLocalidadesByProvincia a
  | TrackingPieza a => trackingPieza a
  end.

(** The four operations whose rows come from [getDataFromResponse]. *)
Definition usesFieldExtractor (op : operation) : bool :=
  match op with
  | GetLocalidadesByProvincia _ => false
  | _ => true
  end.

(** What an operation does with the parsed document. *)
Definition reshape (op : operation) (json : value) : completion value :=
  match op with
  | ListEnvios _ => callMap (getDataFromResponse json) listEnvios_row
  | TarifarEnvioCorporativo _ =>
      callMap (getDataFromResponse json) tarifarEnvioCorporativo_row
  | GetProvincias => callMap (getDataFromResponse json) getProvincias_row
  | GetLocalidadesByProvincia _ => getLocalidadesByProvincia_names json
  | TrackingPieza _ => callMap (getDataFromResponse json) trackingPieza_row
  end.

(** The callback an operation passes to [map]. *)
Definition rowMapper (op : operation) : value -> completion value :=
  match op with
  | ListEnvios _ => listEnvios_row
  | TarifarEnvioCorporativo _ => tarifarEnvioCorporativo_row
  | GetProvincias => getProvincias_row
  | GetLocalidadesByProvincia _ => getLocalidadesByProvincia_place
  | TrackingPieza _ => trackingPieza_row
  end.

End Client.

(** ** Rows and their fields *)

(** The value an operation calls [map] on. *)
Definition rowsOf (op : operation) (json : value) : value :=
  match op with
  | GetLocalidadesByProvincia _ =>
      getProp (getProp json (lit "Localidades")) (lit "Provincia")
  | _ => getDataFromResponse json
  end.

(** The element names an operation reads from a row, in the order it reads
    them. *)
Definition sourceFields (op : operation) : list jsstring :=
  match op with
  | ListEnvios _ => [lit "NroProducto"; lit "NumeroEnvio"]
  | TarifarEnvioCorporativo _ =>
      [lit "Tarifador"; lit "Precio"; lit "idTiposervicio"; lit "Ambito";
       lit "PlazoEntrega"; lit "Adicional"; lit "Total"]
  | GetProvincias => [lit "IdProvincia"; lit "Descripcion"]
  | GetLocalidadesByProvincia _ => [lit "Nombre"]
  | TrackingPieza _ =>
      [lit "NumeroEnvio"; lit "Descripcion_Motivo"; lit "Desdcripcion_Estado";
       lit "SUC"; lit "fecha"]
  end.

(** [row.field[0]] when nothing on the way is [undefined] or [null]. *)
Definition firstValue (row : value) (field : jsstring) : value :=
  getProp (getProp row field) (lit "0").

(** The row is an object (or a text) and each of the fields is there. *)
Definition rowOk (fields : list jsstring) (row : value) : Prop :=
  isNullish row = false /\
  Forall (fun field => isNullish (getProp row field) = false) fields.

(** ** Sample documents and environments

    Documents of the shape [xml2js] builds by default: the root element is a
    property of the top object, every child element name maps to the array
    of its occurrences, and an element with text only is that text. *)

Definition diffgramDoc (rows : list value) : value :=
  VObj [(lit "DataSet",
         VObj [(lit "diffgr:diffgram",
                VArr [VObj [(lit "NewDataSet",
                             VArr [VObj [(lit "Table", VArr rows)]])]])])].

Definition envioRow (nroProducto numeroEnvio : string) : value :=
  VObj [(lit "NroProducto", VArr [VStr (lit nroProducto)]);
        (lit "NumeroEnvio", VArr [VStr (lit numeroEnvio)])].

Definition provinciaRow (idProvincia descripcion : string) : value :=
  VObj [(lit "IdProvincia", VArr [VStr (lit idProvincia)]);
        (lit "Descripcion", VArr [VStr (lit descripcion)])].

Definition enviosDoc : value :=
  diffgramDoc [envioRow "1234" "5678"; envioRow "4321" "8765"].

Definition provinciasDoc : value :=
  diffgramDoc [provinciaRow " 1 " "  BUENOS  AIRES "; provinciaRow "2" "CHACO"].

(** [<DataSet><diffgr:diffgram><NewDataSet/></diffgr:diffgram></DataSet>] *)
Definition noRowsDoc : value :=
  VObj [(lit "DataSet",
         VObj [(lit "diffgr:diffgram",
                VArr [VObj [(lit "NewDataSet", VArr [VStr []])]])])].

Definition localidadesDoc : value :=
  VObj [(lit "Localidades",
         VObj [(lit "Provincia",
                VArr [VObj [(lit "Nombre", VArr [VStr (lit "AZUL")])];
                      VObj [(lit "Nombre", VArr [VStr (lit "TANDIL")])]])])].

(** [<Localidades/>] *)
Definition noLocalidadesDoc : value :=
  VObj [(lit "Localidades", VStr [])].

(** A row of [List_Envios] without its [NumeroEnvio] element. *)
Definition brokenEnviosDoc : value :=
  diffgramDoc [VObj [(lit "NroProducto", VArr [VStr (lit "1234")])]].

(** A network that answers every request with the given status and body. *)
Definition answering (st : N) (body : jsstring) : jsstring -> promise response :=
  fun _ => Resolved {| status := st; text := Resolved body |}.

(** A parser that accepts every text as the given document. *)
Definition parsingTo (json : value) : jsstring -> error + value :=
  fun _ => inr json.


(** The second [Nombre] carries an attribute, so it is an object:
    [<Provincia><Nombre id="7">TANDIL</Nombre></Provincia>]. *)
Definition attributedNombre : value :=
  VObj [(lit "_", VStr (lit "TANDIL")); (lit "$", VObj [(lit "id", VStr (lit "7"))])].

Definition attributedLocalidadesDoc : value :=
  VObj [(lit "Localidades",
         VObj [(lit "Provincia",
                VArr [VObj [(lit "Nombre", VArr [VStr (lit "AZUL")])];
                      VObj [(lit "Nombre", VArr [attributedNombre])]])])].


(** A network that cannot be reached. *)
Definition unreachable (err : error) : jsstring -> promise response :=
  fun _ => Rejected err.

(** A network that never answers. *)
Definition silent : jsstring -> promise response :=
  fun _ => Pending.

(** A network whose answer breaks off while the body is read. *)
Definition breakingOff (st : N) (err : error) : jsstring -> promise response :=
  fun _ => Resolved {| status := st; text := Rejected err |}.

Definition tarifaRow : value :=
  VObj [(lit "Tarifador", VArr [VStr (lit "15")]);
        (lit "Precio", VArr [VStr (lit "328.90")]);
        (lit "idTiposervicio", VArr [VStr (lit "1")]);
        (lit "Ambito", VArr [VStr (lit "Local")]);
        (lit "PlazoEntrega", VArr [VStr (lit "3")]);
        (lit "Adicional", VArr [VStr (lit "0.00")]);
        (lit "Total", VArr [VStr (lit "328.90")])].

Definition tarifaRecord : value :=
  VObj [(lit "tarifador", VStr (lit "15"));
        (lit "precio", VStr (lit "328.90"));
        (lit "idTiposervicio", VStr (lit "1"));
        (lit "ambito", VStr (lit "Local"));
        (lit "plazoEntrega", VStr (lit "3"));
        (lit "adicional", VStr (lit "0.00"));
        (lit "total", VStr (lit "328.90"))].

Definition trackingRow (estado : string) : value :=
  VObj [(lit "NumeroEnvio", VArr [VStr (lit "648")]);
        (lit "Descripcion_Motivo", VArr [VStr (lit "Sin Motivo")]);
        (lit "Desdcripcion_Estado", VArr [VStr (lit estado)]);
        (lit "SUC", VArr [VStr (lit "CORDOBA")]);
        (lit "fecha", VArr [VStr (lit "2016-06-02")])].

Definition trackingRecord (estado : string) : value :=
  VObj [(lit "numeroEnvio", VStr (lit "648"));
        (lit "descripcion_Motivo", VStr (lit "Sin Motivo"));
        (lit "desdcripcion_Estado", VStr (lit estado));
        (lit "suc", VStr (lit "CORDOBA"));
        (lit "fecha", VStr (lit "2016-06-02"))].

(** A [Descripcion] element that carries an attribute is an object. *)
Definition attributedDescripcion : value :=
  VObj [(lit "_", VStr (lit "CHACO")); (lit "$", VObj [(lit "lang", VStr (lit "es"))])].

Definition attributedProvinciasDoc : value :=
  diffgramDoc [provinciaRow "1" "BUENOS AIRES";
               VObj [(lit "IdProvincia", VArr [VStr (lit "2")]);
                     (lit "Descripcion", VArr [attributedDescripcion])];
               provinciaRow "3" "CORDOBA"].

(** The second of three rows lacks [NumeroEnvio]. *)
Definition partlyBrokenEnviosDoc : value :=
  diffgramDoc [envioRow "1234" "5678";
               VObj [(lit "NroProducto", VArr [VStr (lit "4321")])];
               envioRow "1111" "2222"].

Definition showNullish (v : value) : jsstring :=
  match v with
  | VNull => lit "null"
  | _ => lit "undefined"
  end.

(** Sample messages.  For a read on [undefined] or [null] this is the
    wording of Node up to version 14; for the two other faults the engine
    names the source expression, which a fault does not carry, and the
    sample gives a short text with the member name only. *)
Definition sampleText (f : type_fault) : jsstring :=
  match f with
  | ReadOfNullish base k =>
      lit "Cannot read property '" ++ k ++ lit "' of " ++ showNullish base
  | DestructureOfNullish base =>
      lit "Cannot destructure '" ++ showNullish base ++ lit "'"
  | NotAFunction _ k => k ++ lit " is not a function"
  end.

Definition sampleEnvios : ListEnviosArgs.t :=
  {| ListEnviosArgs.cuit := lit "30-71448151-3";
     ListEnviosArgs.fechaDesde := lit "02/06/2016";
     ListEnviosArgs.fechaHasta := lit "03/06/2016" |}.

Definition sampleTarifar : TarifarArgs.t :=
  {| TarifarArgs.operativa := lit "63082";
     TarifarArgs.cuit := lit "27-16321016-4";
     TarifarArgs.pesoTotal := lit "3.5";
     TarifarArgs.volumenTotal := lit "2";
     TarifarArgs.codigoPostalOrigen := lit "2000";
     TarifarArgs.codigoPostalDestino := lit "2000";
     TarifarArgs.cantidadPaquetes := lit "5";
     TarifarArgs.valorDeclarado := lit "100" |}.

Definition sampleLocalidades : LocalidadesArgs.t :=
  {| LocalidadesArgs.idProvincia := lit "1" |}.

Definition sampleTracking : TrackingArgs.t :=
  {| TrackingArgs.pieza := lit "4610700000000000648";
     TrackingArgs.nroDocumentoCliente := None;
     TrackingArgs.cuit := None |}.

(** ** Properties *)

(** *** Strings *)

Lemma str_eqb_eq (a b : jsstring) : str_eqb a b = true <-> a = b.
Proof.
  revert b; induction a as [|x a IH]; intros [|y b]; simpl;
    try (split; [discriminate | discriminate]); try tauto.
  rewrite andb_true_iff, N.eqb_eq, IH.
  split; [intros [-> ->]; reflexivity | intros H; inversion H; auto].
Qed.

Lemma trimStart_spec (s : jsstring) :
  exists pre,
    s = pre ++ trimStart s /\
    Forall (fun c => isWhiteSpace c = true) pre /\
    (forall c t, trimStart s = c :: t -> isWhiteSpace c = false).
Proof.
  induction s as [|c s (pre & Hs & Hpre & Hhd)].
  - exists []; simpl; repeat split; [constructor | discriminate].
  - simpl. destruct (isWhiteSpace c) eqn:Hc.
    + exists (c :: pre); simpl; repeat split.
      * f_equal; exact Hs.
      * constructor; assumption.
      * exact Hhd.
    + exists []; simpl; repeat split; [constructor |].
      intros c' t [= <- _]; exact Hc.
Qed.

Lemma trim_isTrimOf (s : jsstring) : isTrimOf s (trim s).
Proof.
  unfold isTrimOf, trim, trimEnd.
  destruct (trimStart_spec s) as (pre & Hs & Hpre & Hhd).
  destruct (trimStart_spec (rev (trimStart s))) as (rpost & Hr & Hrpost & Hlast).
  set (m := trimStart s) in *.
  set (r := trimStart (rev m)) in *.
  assert (Hm : m = rev r ++ rev rpost).
  { rewrite <- rev_app_distr, <- Hr, rev_involutive; reflexivity. }
  exists pre, (rev rpost); repeat split.
  - rewrite <- Hm; exact Hs.
  - exact Hpre.
  - apply Forall_rev; exact Hrpost.
  - intros c t' Ht. destruct (rev r) as [|c0 t0] eqn:Hrr; [discriminate|].
    injection Ht as <- <-.
    apply (Hhd c0 (t0 ++ rev rpost)). rewrite Hm; reflexivity.
  - intros c t' Ht. apply (Hlast c (rev t')).
    rewrite <- (rev_involutive r), Ht, rev_app_distr; reflexivity.
Qed.

Lemma trimStart_whitespace_prefix (pre s : jsstring) :
  Forall (fun c => isWhiteSpace c = true) pre ->
  trimStart (pre ++ s) = trimStart s.
Proof.
  induction 1 as [|c pre Hc _ IH]; simpl; [reflexivity|].
  rewrite Hc; exact IH.
Qed.

Lemma trimStart_whitespace (s : jsstring) :
  Forall (fun c => isWhiteSpace c = true) s -> trimStart s = [].
Proof.
  intros H. rewrite <- (app_nil_r s). rewrite trimStart_whitespace_prefix by exact H.
  reflexivity.
Qed.

Lemma trimStart_fixed (s : jsstring) :
  (forall c s', s = c :: s' -> isWhiteSpace c = false) -> trimStart s = s.
Proof.
  destruct s as [|c s]; simpl; [reflexivity|].
  intros H; rewrite (H c s eq_refl); reflexivity.
Qed.

(** The description [isTrimOf] fits one string only, the one [trim]
    computes. *)
Lemma isTrimOf_unique (s t : jsstring) : isTrimOf s t -> t = trim s.
Proof.
  intros (pre & post & -> & Hpre & Hpost & Hhd & Hlast).
  unfold trim, trimEnd. rewrite trimStart_whitespace_prefix by exact Hpre.
  destruct t as [|c t].
  - simpl. rewrite (trimStart_whitespace Hpost). simpl.
    reflexivity.
  - assert (Hfix : trimStart ((c :: t) ++ post) = (c :: t) ++ post).
    { apply trimStart_fixed. intros c' s' [= <- _]. exact (Hhd c t eq_refl). }
    rewrite Hfix, rev_app_distr.
    rewrite trimStart_whitespace_prefix by (apply Forall_rev; exact Hpost).
    rewrite trimStart_fixed; [rewrite rev_involutive; reflexivity|].
    intros c' s' Hrev. apply (Hlast c' (rev s')).
    rewrite <- (rev_involutive (c :: t)), Hrev. reflexivity.
Qed.

(** *** The field extractor *)

Lemma walk_undefined (path : list jsstring) : walk VUndefined path = VUndefined.
Proof. destruct path; reflexivity. Qed.

Lemma walk_app (v : value) (p q : list jsstring) :
  walk v (p ++ q) = walk (walk v p) q.
Proof.
  revert v; induction p as [|k p IH]; intros v; simpl; [reflexivity|].
  destruct (isNullish v); [rewrite walk_undefined; reflexivity | apply IH].
Qed.

Lemma getProp_defined_base (v : value) (k : jsstring) :
  getProp v k <> VUndefined -> isNullish v = false.
Proof. destruct v; simpl; congruence. Qed.

Lemma stringToPath_tablePath : stringToPath tablePath = tableSegments.
Proof. reflexivity. Qed.

Lemma get_tablePath (json : value) :
  hasProperty json tablePath = false ->
  getDataFromResponse json =
    match walk json tableSegments with
    | VUndefined => VArr []
    | v => v
    end.
Proof.
  intros Hkey. unfold getDataFromResponse, get, castPath. rewrite Hkey.
  rewrite stringToPath_tablePath.
  destruct (isNullish json) eqn:Hn.
  - destruct json; try discriminate; reflexivity.
  - change (baseGet json tableSegments) with (walk json tableSegments).
    destruct (walk json tableSegments); reflexivity.
Qed.

Lemma get_missing_segment (json : value) (k : nat) :
  hasProperty json tablePath = false ->
  walk json (firstn k tableSegments) = VUndefined ->
  getDataFromResponse json = VArr [].
Proof.
  intros Hkey Hwalk. rewrite get_tablePath by exact Hkey.
  rewrite <- (firstn_skipn k tableSegments), walk_app, Hwalk, walk_undefined.
  reflexivity.
Qed.

Lemma encodesTable_walk (json : value) (rows : list value) :
  encodesTable json rows -> walk json tableSegments = VArr rows.
Proof.
  intros (_ & dg & dgs & nds & ndss & Hdg & Hnds & Hrows).
  assert (Hds : isNullish (getProp json (lit "DataSet")) = false)
    by (apply getProp_defined_base with (k := lit "diffgr:diffgram"); congruence).
  assert (Hjson : isNullish json = false).
  { apply getProp_defined_base with (k := lit "DataSet").
    intros E; rewrite E in Hds; discriminate. }
  assert (Hdg' : isNullish dg = false)
    by (apply getProp_defined_base with (k := lit "NewDataSet"); congruence).
  assert (Hnds' : isNullish nds = false)
    by (apply getProp_defined_base with (k := lit "Table"); congruence).
  unfold tableSegments; simpl walk.
  rewrite Hjson, Hds, Hdg; simpl.
  rewrite Hdg', Hnds; simpl. rewrite Hnds', Hrows. reflexivity.
Qed.

Lemma encodesTable_get (json : value) (rows : list value) :
  encodesTable json rows -> getDataFromResponse json = VArr rows.
Proof.
  intros H. rewrite get_tablePath by apply H.
  rewrite (encodesTable_walk H). reflexivity.
Qed.

Lemma encodesTable_diffgramDoc (rows : list value) :
  encodesTable (diffgramDoc rows) rows.
Proof.
  split; [reflexivity|].
  exists (VObj [(lit "NewDataSet", VArr [VObj [(lit "Table", VArr rows)]])]), [],
         (VObj [(lit "Table", VArr rows)]), [].
  repeat split.
Qed.

(** *** Promise chains *)

Lemma settle_Resolved_inv {A} (c : completion A) (a : A) :
  settle c = Resolved a -> c = Normal a.
Proof. destruct c; simpl; congruence. Qed.

Lemma catch_Resolved_inv (p : promise value) (h : error -> promise value) (v : value) :
  (forall e, h e <> Resolved v) -> catch_ p h = Resolved v -> p = Resolved v.
Proof.
  intros Hh; destruct p as [a|e|]; simpl; intros H; try assumption.
  elim (Hh e H).
Qed.

Lemma bind_Normal_inv {A B} (c : completion A) (k : A -> completion B) (b : B) :
  bind c k = Normal b -> exists a, c = Normal a /\ k a = Normal b.
Proof. destruct c; simpl; intros H; try discriminate; eauto. Qed.

Lemma errToString_newError (body : jsstring) :
  errToString (newError body) =
    match body with
    | [] => lit "Error"
    | _ => lit "Error: " ++ body
    end.
Proof. destruct body; reflexivity. Qed.

Lemma errToString_longer (e : error) :
  name e <> [] -> errToString e <> message e.
Proof.
  destruct e as [nm msg]; simpl; intros Hnm.
  unfold errToString; simpl.
  destruct nm as [|c nm]; [congruence|].
  destruct msg as [|d msg]; [discriminate|].
  intros H. apply (f_equal (@List.length N)) in H.
  simpl in H. rewrite length_app in H. simpl in H. lia.
Qed.

Section Properties.

Variable fetch : jsstring -> promise response.
Variable parseXML : jsstring -> error + value.
Variable typeErrorText : type_fault -> jsstring.

Local Abbreviation run := (call fetch parseXML typeErrorText).
Local Abbreviation chain := (pipeline fetch parseXML typeErrorText).
Local Abbreviation shape := (reshape typeErrorText).

Lemma call_catch (op : operation) : run op = catch_ (chain op) rethrow.
Proof. destruct op; reflexivity. Qed.

Lemma pipeline_stages (op : operation) :
  chain op =
    thenC (then_ (fetch (requestURL op)) (parseResponse parseXML)) (shape op).
Proof.
  destruct op; simpl;
    unfold listEnvios_pipeline, tarifarEnvioCorporativo_pipeline,
      getProvincias_pipeline, getLocalidadesByProvincia_pipeline,
      trackingPieza_pipeline, thenC, thenV;
    match goal with
    | |- context [then_ (fetch ?u) ?f] => destruct (then_ (fetch u) f)
    end; reflexivity.
Qed.

Lemma call_rejected (op : operation) (orig : error) :
  chain op = Rejected orig -> run op = Rejected (newError (errToString orig)).
Proof. intros H; rewrite call_catch, H; reflexivity. Qed.

Lemma call_rejected_inv (op : operation) (e : error) :
  run op = Rejected e -> exists orig, chain op = Rejected orig /\ e = newError (errToString orig).
Proof.
  rewrite call_catch. destruct (chain op) as [v|orig|]; simpl; intros H;
    try discriminate.
  exists orig; split; [reflexivity|]. unfold rethrow in H; congruence.
Qed.

Lemma call_resolved_inv (op : operation) (v : value) :
  run op = Resolved v -> chain op = Resolved v.
Proof.
  rewrite call_catch. apply catch_Resolved_inv. intros e; discriminate.
Qed.

(** The chain after an answer with a failure status. *)
Lemma pipeline_upstream_failure (op : operation) (resp : response) (body : jsstring) :
  fetch (requestURL op) = Resolved resp ->
  ok resp = false ->
  text resp = Resolved body ->
  chain op = Rejected (newError body).
Proof.
  intros Hf Hok Ht. rewrite pipeline_stages, Hf. simpl.
  unfold parseResponse. rewrite Hok, Ht. reflexivity.
Qed.

(** The chain after an answer whose body the parser refuses. *)
Lemma pipeline_parse_error (op : operation) (resp : response) (body : jsstring)
      (err : error) :
  fetch (requestURL op) = Resolved resp ->
  ok resp = true ->
  text resp = Resolved body ->
  parseXML body = inl err ->
  chain op = Rejected err.
Proof.
  intros Hf Hok Ht Hp. rewrite pipeline_stages, Hf. simpl.
  unfold parseResponse. rewrite Hok, Ht. simpl. rewrite Hp. reflexivity.
Qed.

(** The chain after an answer whose body parses. *)
Lemma pipeline_parsed (op : operation) (resp : response) (body : jsstring)
      (json : value) :
  fetch (requestURL op) = Resolved resp ->
  ok resp = true ->
  text resp = Resolved body ->
  parseXML body = inr json ->
  chain op = settle (shape op json).
Proof.
  intros Hf Hok Ht Hp. rewrite pipeline_stages, Hf. simpl.
  unfold parseResponse. rewrite Hok, Ht. simpl. rewrite Hp. reflexivity.
Qed.

(** C1, as amended.  After an answer with a failure status, [parseResponse]
    fails with an [Error] whose message is the response body, and each of the
    five operations rejects with a new [Error] whose message is [Error: ]
    followed by the response body (the text [Error] alone when the body is
    empty): the handler at the end of the chain converts the error of
    [parseResponse] to a string. *)
Theorem failure_status_rejects_with_prefixed_body
        (op : operation) (resp : response) (body : jsstring) :
  fetch (requestURL op) = Resolved resp ->
  ok resp = false ->
  text resp = Resolved body ->
  parseResponse parseXML resp = Rejected (newError body) /\
  run op =
    Rejected (newError (match body with
                        | [] => lit "Error"
                        | _ => lit "Error: " ++ body
                        end)).
Proof.
  intros Hf Hok Ht. split.
  - unfold parseResponse. rewrite Hok, Ht. reflexivity.
  - rewrite (call_rejected op (pipeline_upstream_failure op Hf Hok Ht)).
    rewrite errToString_newError. reflexivity.
Qed.


(** C9.  For every operation, whatever makes the chain fail, the caller gets
    a newly built generic [Error] whose message is the string conversion of
    the original error; with an original error that has a name, this message
    differs from the original message.  In particular for the three causes:
    a failure status, a body the parser refuses, and a row whose field is
    missing (the reshaping of the document throws). *)
Theorem every_failure_is_rewrapped (op : operation) :
  (forall orig, chain op = Rejected orig ->
     run op = Rejected (newError (errToString orig))) /\
  (forall e, run op = Rejected e ->
     exists orig,
       chain op = Rejected orig /\
       e = newError (errToString orig) /\
       name e = lit "Error" /\
       (name orig <> [] -> message e <> message orig)) /\
  (forall resp body,
     fetch (requestURL op) = Resolved resp ->
     text resp = Resolved body ->
     (ok resp = false ->
        run op = Rejected (newError (errToString (newError body)))) /\
     (forall err, ok resp = true -> parseXML body = inl err ->
        run op = Rejected (newError (errToString err))) /\
     (forall json orig, ok resp = true -> parseXML body = inr json ->
        shape op json = Throw orig ->
        run op = Rejected (newError (errToString orig)))).
Proof.
  split; [|split].
  - intros orig; apply call_rejected.
  - intros e He. destruct (call_rejected_inv op He) as (orig & Hc & ->).
    exists orig; repeat split; trivial.
    simpl; apply errToString_longer.
  - intros resp body Hf Ht; repeat split.
    + intros Hok. apply call_rejected, (pipeline_upstream_failure op Hf Hok Ht).
    + intros err Hok Hp. apply call_rejected, (pipeline_parse_error op Hf Hok Ht Hp).
    + intros json orig Hok Hp Hs. apply call_rejected.
      rewrite (pipeline_parsed op Hf Hok Ht Hp), Hs. reflexivity.
Qed.

(** *** Row mapping *)

Lemma mapM_Normal_inv (f : value -> completion value) (items ys : list value) :
  mapM f items = Normal ys -> Forall2 (fun x y => f x = Normal y) items ys.
Proof.
  revert ys; induction items as [|x items IH]; simpl; intros ys H.
  - injection H as <-; constructor.
  - apply bind_Normal_inv in H as (y & Hy & H).
    apply bind_Normal_inv in H as (ys' & Hys & H).
    injection H as <-. constructor; auto.
Qed.

Lemma mapM_Normal_intro (f : value -> completion value) (items ys : list value) :
  Forall2 (fun x y => f x = Normal y) items ys -> mapM f items = Normal ys.
Proof.
  induction 1 as [|x y items ys Hxy _ IH]; simpl; [reflexivity|].
  rewrite Hxy; simpl. rewrite IH; reflexivity.
Qed.

Lemma callMap_Normal_inv (receiver : value) (f : value -> completion value)
      (r : value) :
  callMap typeErrorText receiver f = Normal r ->
  exists items ys,
    receiver = VArr items /\ r = VArr ys /\
    Forall2 (fun x y => f x = Normal y) items ys.
Proof.
  destruct receiver as [| |s|items|props]; simpl; try discriminate.
  intros H. apply bind_Normal_inv in H as (ys & Hys & H).
  injection H as <-. exists items, ys; repeat split.
  apply mapM_Normal_inv; exact Hys.
Qed.

Lemma member_Normal_inv (base : value) (k : jsstring) (v : value) :
  member typeErrorText base k = Normal v ->
  isNullish base = false /\ v = getProp base k.
Proof.
  unfold member. destruct (isNullish base); [discriminate|].
  intros [= <-]; split; reflexivity.
Qed.

Lemma member_defined (base : value) (k : jsstring) :
  getProp base k <> VUndefined ->
  member typeErrorText base k = Normal (getProp base k).
Proof.
  intros H. unfold member. rewrite (getProp_defined_base _ _ H). reflexivity.
Qed.

Lemma member_array (base : value) (k : jsstring) (items : list value) :
  getProp base k = VArr items ->
  member typeErrorText base k = Normal (VArr items).
Proof. intros H. rewrite <- H. apply member_defined. congruence. Qed.

Lemma destructure_Normal_inv (base obj : value) :
  destructure typeErrorText base = Normal obj ->
  isNullish base = false /\ obj = base.
Proof.
  unfold destructure. destruct (isNullish base); [discriminate|].
  intros [= <-]; split; reflexivity.
Qed.

(** With no rows under the fixed path, the four operations that use the
    field extractor give the empty array. *)
Lemma field_extractor_operations_no_rows (op : operation) (json : value) :
  usesFieldExtractor op = true ->
  getDataFromResponse json = VArr [] ->
  shape op json = Normal (VArr []).
Proof.
  intros Hop Hrows. destruct op; try discriminate; simpl; rewrite Hrows; reflexivity.
Qed.

(** C3.  With a document that encodes a table of two rows, each with a
    [NroProducto] and a [NumeroEnvio] element, [listEnvios] resolves to
    exactly two records, in document order, whose [nroProducto] and
    [numeroEnvio] are the first values of those elements. *)
Theorem listEnvios_two_rows
        (a : ListEnviosArgs.t) (resp : response) (body : jsstring) (json : value)
        (row1 row2 p1 e1 p2 e2 : value) (ps1 es1 ps2 es2 : list value) :
  fetch (listEnvios_request a) = Resolved resp ->
  ok resp = true ->
  text resp = Resolved body ->
  parseXML body = inr json ->
  encodesTable json [row1; row2] ->
  getProp row1 (lit "NroProducto") = VArr (p1 :: ps1) ->
  getProp row1 (lit "NumeroEnvio") = VArr (e1 :: es1) ->
  getProp row2 (lit "NroProducto") = VArr (p2 :: ps2) ->
  getProp row2 (lit "NumeroEnvio") = VArr (e2 :: es2) ->
  listEnvios fetch parseXML typeErrorText a =
    Resolved (VArr [VObj [(lit "nroProducto", p1); (lit "numeroEnvio", e1)];
                    VObj [(lit "nroProducto", p2); (lit "numeroEnvio", e2)]]).
Proof.
  intros Hf Hok Ht Hp Htable Hp1 He1 Hp2 He2.
  change (listEnvios fetch parseXML typeErrorText a) with (run (ListEnvios a)).
  rewrite call_catch, (pipeline_parsed (ListEnvios a) Hf Hok Ht Hp).
  simpl shape. rewrite (encodesTable_get Htable). simpl.
  unfold listEnvios_row.
  rewrite (member_array _ _ Hp1), (member_array _ _ He1),
          (member_array _ _ Hp2), (member_array _ _ He2).
  reflexivity.
Qed.

(** C4.  When a segment of the fixed path [DataSet], [diffgr:diffgram], [0],
    [NewDataSet], [0], [Table] is missing from a parsed document,
    [getDataFromResponse] returns the empty array; being a total function,
    it does not fail. *)
Theorem getDataFromResponse_missing_segment (json : value) (k : nat) :
  hasProperty json tablePath = false ->
  segmentMissing json k ->
  getDataFromResponse json = VArr [].
Proof.
  intros Hkey (_ & Hwalk). exact (get_missing_segment json k Hkey Hwalk).
Qed.

Lemma callTrim_Normal_inv (receiver v : value) :
  callTrim typeErrorText receiver = Normal v ->
  exists d, receiver = VStr d /\ v = VStr (trim d).
Proof.
  destruct receiver as [| |d|items|props]; simpl; try discriminate.
  intros [= <-]; exists d; split; reflexivity.
Qed.

Lemma getProvincias_row_inv (row record : value) :
  getProvincias_row typeErrorText row = Normal record ->
  exists d,
    getProp (getProp row (lit "Descripcion")) (lit "0") = VStr d /\
    isTrimOf d (trim d) /\
    record =
      VObj [(lit "idProvincia", getProp (getProp row (lit "IdProvincia")) (lit "0"));
            (lit "descripcion", VStr (trim d))].
Proof.
  unfold getProvincias_row. intros H.
  apply bind_Normal_inv in H as (obj & Hobj & H).
  apply destructure_Normal_inv in Hobj as (_ & ->).
  apply bind_Normal_inv in H as (idProvincia & Hid & H).
  apply member_Normal_inv in Hid as (_ & ->).
  apply bind_Normal_inv in H as (descripcion0 & Hd0 & H).
  apply member_Normal_inv in Hd0 as (_ & ->).
  apply bind_Normal_inv in H as (descripcion & Hd & H).
  apply callTrim_Normal_inv in Hd as (d & Hd & ->).
  injection H as <-.
  exists d; repeat split; [exact Hd | apply trim_isTrimOf].
Qed.

(** C5.  Every record [getProvincias] returns comes from one row of the
    table, in order: its [descripcion] is the first value of the row's
    [Descripcion] with the whitespace before its first and after its last
    other character removed and everything between kept, and its
    [idProvincia] is the first value of [IdProvincia] as received. *)
Theorem getProvincias_trims_descripcion
        (resp : response) (body : jsstring) (json r : value) :
  fetch getProvincias_request = Resolved resp ->
  ok resp = true ->
  text resp = Resolved body ->
  parseXML body = inr json ->
  getProvincias fetch parseXML typeErrorText = Resolved r ->
  exists rows records,
    getDataFromResponse json = VArr rows /\
    r = VArr records /\
    Forall2
      (fun row record =>
         exists d,
           getProp (getProp row (lit "Descripcion")) (lit "0") = VStr d /\
           isTrimOf d (trim d) /\
           record =
             VObj [(lit "idProvincia",
                    getProp (getProp row (lit "IdProvincia")) (lit "0"));
                   (lit "descripcion", VStr (trim d))])
      rows records.
Proof.
  intros Hf Hok Ht Hp Hr.
  change (getProvincias fetch parseXML typeErrorText) with (run GetProvincias) in Hr.
  apply call_resolved_inv in Hr.
  rewrite (pipeline_parsed GetProvincias Hf Hok Ht Hp) in Hr.
  apply settle_Resolved_inv in Hr. simpl in Hr.
  apply callMap_Normal_inv in Hr as (rows & records & Hrows & -> & Hall).
  exists rows, records; repeat split; [exact Hrows|].
  revert Hall; apply Forall2_impl. exact getProvincias_row_inv.
Qed.

(** C6.  When the caller leaves out [nroDocumentoCliente] and [cuit],
    [trackingPieza] requests the [Tracking_Pieza] address with the query
    string [pieza=<pieza>&nroDocumentoCliente=0&cuit=0], the given [pieza]
    copied as it is. *)
Theorem trackingPieza_default_parameters (pieza : jsstring) :
  let a := {| TrackingArgs.pieza := pieza;
              TrackingArgs.nroDocumentoCliente := None;
              TrackingArgs.cuit := None |} in
  let url :=
    baseURL ++ lit "/Tracking_Pieza" ++ lit "?"
    ++ lit "pieza=" ++ pieza ++ lit "&nroDocumentoCliente=0&cuit=0" in
  trackingPieza_request a = url /\
  trackingPieza fetch parseXML typeErrorText a =
    catch_
      (thenC (thenV (then_ (fetch url) (parseResponse parseXML)) getDataFromResponse)
             (fun list => callMap typeErrorText list (trackingPieza_row typeErrorText)))
      rethrow.
Proof.
  intros a url.
  assert (Hurl : trackingPieza_request a = url).
  { unfold trackingPieza_request, url, a; simpl orDefault.
    cbv zeta. rewrite <- !app_assoc. reflexivity. }
  split; [exact Hurl|].
  unfold trackingPieza, trackingPieza_pipeline. rewrite Hurl. reflexivity.
Qed.

Lemma names_of_places (places : list value) (names : list jsstring) :
  Forall2 (fun place nm =>
             getProp (getProp place (lit "Nombre")) (lit "0") = VStr nm)
          places names ->
  mapM (getLocalidadesByProvincia_place typeErrorText) places =
    Normal (map VStr names).
Proof.
  intros H. apply mapM_Normal_intro.
  induction H as [|place nm places names Hnm _ IH]; simpl; constructor; trivial.
  unfold getLocalidadesByProvincia_place.
  assert (Hdef : getProp place (lit "Nombre") <> VUndefined).
  { intros E; rewrite E in Hnm; discriminate. }
  rewrite (member_defined _ _ Hdef); simpl.
  rewrite <- Hnm. apply member_defined. congruence.
Qed.

Lemma getLocalidadesByProvincia_place_inv (place nm : value) :
  getLocalidadesByProvincia_place typeErrorText place = Normal nm ->
  nm = getProp (getProp place (lit "Nombre")) (lit "0").
Proof.
  unfold getLocalidadesByProvincia_place. intros H.
  apply bind_Normal_inv in H as (Nombre & HN & H).
  apply member_Normal_inv in HN as (_ & ->).
  apply member_Normal_inv in H as (_ & ->). reflexivity.
Qed.

Lemma all_text_iff (f : value -> value) (places : list value) :
  (exists names, map f places = map VStr names) <->
  Forall (fun place => exists nm, f place = VStr nm) places.
Proof.
  split.
  - intros (names & H). revert names H.
    induction places as [|place places IH]; intros [|nm names] H;
      try discriminate; constructor.
    + exists nm. simpl in H. congruence.
    + apply (IH names). simpl in H. congruence.
  - induction 1 as [|place places (nm & Hnm) _ (names & IH)].
    + exists []; reflexivity.
    + exists (nm :: names); simpl. rewrite Hnm, IH. reflexivity.
Qed.

(** C8, as amended.  [getLocalidadesByProvincia] reads the array at
    [Localidades], [Provincia] of the parsed document and returns, in order,
    the first value of each element's [Nombre], handed on as it is and never
    put into a record by the operation.  With first values that are all
    texts it resolves to the plain array of these strings; and whenever it
    resolves, its entries are all strings exactly when every first value is
    a text: a [Nombre] with attributes or children comes out as the object
    the parser built. *)
Theorem getLocalidadesByProvincia_returns_first_values
        (a : LocalidadesArgs.t) (resp : response) (body : jsstring) (json : value) :
  fetch (getLocalidadesByProvincia_request a) = Resolved resp ->
  ok resp = true ->
  text resp = Resolved body ->
  parseXML body = inr json ->
  (forall places names,
     getProp (getProp json (lit "Localidades")) (lit "Provincia") = VArr places ->
     Forall2 (fun place nm =>
                getProp (getProp place (lit "Nombre")) (lit "0") = VStr nm)
             places names ->
     getLocalidadesByProvincia fetch parseXML typeErrorText a =
       Resolved (VArr (map VStr names))) /\
  (forall r,
     getLocalidadesByProvincia fetch parseXML typeErrorText a = Resolved r ->
     exists places,
       getProp (getProp json (lit "Localidades")) (lit "Provincia") = VArr places /\
       r = VArr (map (fun place =>
                        getProp (getProp place (lit "Nombre")) (lit "0"))
                     places) /\
       ((exists names, r = VArr (map VStr names)) <->
        Forall (fun place =>
                  exists nm,
                    getProp (getProp place (lit "Nombre")) (lit "0") = VStr nm)
               places)).
Proof.
  intros Hf Hok Ht Hp.
  pose proof (pipeline_parsed (GetLocalidadesByProvincia a) Hf Hok Ht Hp) as Hchain.
  simpl in Hchain. split.
  - intros places names Hplaces Hnames.
    change (getLocalidadesByProvincia fetch parseXML typeErrorText a)
      with (run (GetLocalidadesByProvincia a)).
    rewrite call_catch. simpl pipeline. rewrite Hchain.
    unfold getLocalidadesByProvincia_names.
    assert (HL : getProp json (lit "Localidades") <> VUndefined).
    { intros E; rewrite E in Hplaces; discriminate. }
    rewrite (member_defined _ _ HL); simpl.
    rewrite (member_array _ _ Hplaces); simpl.
    rewrite (names_of_places Hnames). reflexivity.
  - intros r Hr.
    change (getLocalidadesByProvincia fetch parseXML typeErrorText a)
      with (run (GetLocalidadesByProvincia a)) in Hr.
    apply call_resolved_inv in Hr. simpl in Hr. rewrite Hchain in Hr.
    apply settle_Resolved_inv in Hr.
    unfold getLocalidadesByProvincia_names in Hr.
    apply bind_Normal_inv in Hr as (L & HL & Hr).
    apply member_Normal_inv in HL as (_ & ->).
    apply bind_Normal_inv in Hr as (P & HP & Hr).
    apply member_Normal_inv in HP as (_ & ->).
    apply callMap_Normal_inv in Hr as (places & ys & Hplaces & -> & Hall).
    assert (Hys : ys = map (fun place =>
                              getProp (getProp place (lit "Nombre")) (lit "0"))
                           places).
    { clear Hplaces. induction Hall as [|place y places ys Hy _ IH]; simpl;
        [reflexivity|].
      rewrite (getLocalidadesByProvincia_place_inv _ Hy), IH. reflexivity. }
    exists places; split; [exact Hplaces|]. split; [rewrite Hys; reflexivity|].
    rewrite Hys, <- all_text_iff. split.
    + intros (names & [= H]); exists names; exact H.
    + intros (names & H); exists names; rewrite H; reflexivity.
Qed.

(** C10.  With a parsed document in which [Localidades], or [Provincia]
    under it, is absent, [getLocalidadesByProvincia] rejects, with the
    rewrapped [TypeError] of reading a property of [undefined] or [null]; it
    does not give the empty array, which is what the four operations behind
    the field extractor make of a document whose fixed path is missing. *)
Theorem getLocalidadesByProvincia_missing_path_rejects
        (a : LocalidadesArgs.t) (resp : response) (body : jsstring) (json : value) :
  fetch (getLocalidadesByProvincia_request a) = Resolved resp ->
  ok resp = true ->
  text resp = Resolved body ->
  parseXML body = inr json ->
  getProp json (lit "Localidades") = VUndefined \/
  getProp (getProp json (lit "Localidades")) (lit "Provincia") = VUndefined ->
  (exists base k,
     isNullish base = true /\
     getLocalidadesByProvincia fetch parseXML typeErrorText a =
       Rejected (newError (errToString
                             (typeError typeErrorText (ReadOfNullish base k))))) /\
  getLocalidadesByProvincia fetch parseXML typeErrorText a <> Resolved (VArr []) /\
  (forall op k,
     usesFieldExtractor op = true ->
     hasProperty json tablePath = false ->
     segmentMissing json k ->
     shape op json = Normal (VArr [])).
Proof.
  intros Hf Hok Ht Hp Habsent.
  assert (HP : getProp (getProp json (lit "Localidades")) (lit "Provincia")
               = VUndefined).
  { destruct Habsent as [E|E]; [rewrite E; reflexivity | exact E]. }
  assert (Hrej : exists base k,
     isNullish base = true /\
     getLocalidadesByProvincia fetch parseXML typeErrorText a =
       Rejected (newError (errToString
                             (typeError typeErrorText (ReadOfNullish base k))))).
  { change (getLocalidadesByProvincia fetch parseXML typeErrorText a)
      with (run (GetLocalidadesByProvincia a)).
    rewrite call_catch, (pipeline_parsed (GetLocalidadesByProvincia a) Hf Hok Ht Hp).
    simpl shape. unfold getLocalidadesByProvincia_names, member.
    destruct (isNullish json) eqn:Hj.
    { exists json, (lit "Localidades"); split; [exact Hj | reflexivity]. }
    simpl bind.
    destruct (isNullish (getProp json (lit "Localidades"))) eqn:HL.
    { exists (getProp json (lit "Localidades")), (lit "Provincia");
        split; [exact HL | reflexivity]. }
    simpl bind. rewrite HP.
    exists VUndefined, (lit "map"); split; reflexivity. }
  split; [exact Hrej | split].
  - destruct Hrej as (base & k & _ & ->); discriminate.
  - intros op k Hop Hkey Hmiss.
    apply field_extractor_operations_no_rows; [exact Hop|].
    apply get_missing_segment with (k := k); [exact Hkey | apply Hmiss].
Qed.

(** *** The stages of a call *)

Lemma then_Resolved_inv {A B} (p : promise A) (f : A -> promise B) (b : B) :
  then_ p f = Resolved b -> exists x, p = Resolved x /\ f x = Resolved b.
Proof. destruct p as [x|e|]; simpl; intros H; try discriminate; eauto. Qed.

Lemma parseResponse_Resolved_inv (resp : response) (json : value) :
  parseResponse parseXML resp = Resolved json ->
  exists body,
    ok resp = true /\ text resp = Resolved body /\ parseXML body = inr json.
Proof.
  unfold parseResponse. destruct (ok resp); simpl; intros H.
  - apply then_Resolved_inv in H as (body & Ht & H). exists body.
    destruct (parseXML body) as [err|json']; [discriminate|].
    injection H as ->. repeat split; assumption.
  - apply then_Resolved_inv in H as (body & _ & H). discriminate.
Qed.

Lemma call_resolved_stages (op : operation) (v : value) :
  run op = Resolved v ->
  exists resp body json,
    fetch (requestURL op) = Resolved resp /\
    ok resp = true /\
    text resp = Resolved body /\
    parseXML body = inr json /\
    shape op json = Normal v.
Proof.
  intros H. apply call_resolved_inv in H. rewrite pipeline_stages in H.
  apply then_Resolved_inv in H as (json & H & Hs).
  apply then_Resolved_inv in H as (resp & Hf & Hpr).
  apply parseResponse_Resolved_inv in Hpr as (body & Hok & Ht & Hp).
  apply settle_Resolved_inv in Hs.
  exists resp, body, json; repeat split; assumption.
Qed.

Lemma member_ok (base : value) (k : jsstring) :
  isNullish base = false ->
  member typeErrorText base k = Normal (getProp base k).
Proof. intros H; unfold member; rewrite H; reflexivity. Qed.

Lemma destructure_ok (base : value) :
  isNullish base = false -> destructure typeErrorText base = Normal base.
Proof. intros H; unfold destructure; rewrite H; reflexivity. Qed.

(** What [reshape] does once the rows are known to be an array. *)
Lemma shape_rows (op : operation) (json : value) (rows : list value) :
  rowsOf op json = VArr rows ->
  shape op json =
    (ys <- mapM (rowMapper typeErrorText op) rows ;; Normal (VArr ys)).
Proof.
  destruct op; cbn [rowsOf reshape rowMapper]; intros H;
    try (rewrite H; reflexivity).
  unfold getLocalidadesByProvincia_names.
  assert (HL : getProp json (lit "Localidades") <> VUndefined).
  { intros E; rewrite E in H; discriminate. }
  rewrite (member_defined _ _ HL); cbn [bind].
  rewrite (member_array _ _ H); cbn [bind]. reflexivity.
Qed.

Lemma shape_Normal_inv (op : operation) (json r : value) :
  shape op json = Normal r ->
  exists rows items,
    rowsOf op json = VArr rows /\ r = VArr items /\
    Forall2 (fun row item => rowMapper typeErrorText op row = Normal item)
            rows items.
Proof.
  destruct op; cbn [rowsOf reshape rowMapper]; intros H;
    try (apply callMap_Normal_inv in H as (rows & items & Hr & -> & Hall);
         exists rows, items; repeat split; assumption).
  unfold getLocalidadesByProvincia_names in H.
  apply bind_Normal_inv in H as (L & HL & H).
  apply member_Normal_inv in HL as (_ & ->).
  apply bind_Normal_inv in H as (P & HP & H).
  apply member_Normal_inv in HP as (_ & ->).
  apply callMap_Normal_inv in H as (rows & items & Hr & -> & Hall).
  exists rows, items; repeat split; assumption.
Qed.

(** X1.  An operation resolves in one way only: the request is answered with
    a success status, the body arrives and parses, and the reshaping of the
    document does not throw; the value is then the reshaped document. *)
Theorem call_resolves_iff (op : operation) (v : value) :
  run op = Resolved v <->
  exists resp body json,
    fetch (requestURL op) = Resolved resp /\
    ok resp = true /\
    text resp = Resolved body /\
    parseXML body = inr json /\
    shape op json = Normal v.
Proof.
  split; [apply call_resolved_stages|].
  intros (resp & body & json & Hf & Hok & Ht & Hp & Hs).
  rewrite call_catch, (pipeline_parsed op Hf Hok Ht Hp), Hs. reflexivity.
Qed.

(** X2.  Whatever an operation resolves to is an array with exactly one
    entry per row of the answer, each entry being the row's image under the
    operation's callback, in the order of the rows. *)
Theorem resolved_value_is_array_of_rows
        (op : operation) (resp : response) (body : jsstring) (json r : value) :
  fetch (requestURL op) = Resolved resp ->
  text resp = Resolved body ->
  parseXML body = inr json ->
  run op = Resolved r ->
  exists rows items,
    rowsOf op json = VArr rows /\
    r = VArr items /\
    List.length items = List.length rows /\
    Forall2 (fun row item => rowMapper typeErrorText op row = Normal item)
            rows items.
Proof.
  intros Hf Ht Hp Hr.
  apply call_resolved_stages in Hr
    as (resp' & body' & json' & Hf' & _ & Ht' & Hp' & Hs).
  rewrite Hf in Hf'; injection Hf' as <-.
  rewrite Ht in Ht'; injection Ht' as <-.
  rewrite Hp in Hp'; injection Hp' as <-.
  apply shape_Normal_inv in Hs as (rows & items & Hrows & -> & Hall).
  exists rows, items; repeat split; trivial.
  symmetry; exact (Forall2_length Hall).
Qed.

(** X3.  A request that fails in transport, or an answer whose body cannot
    be read, makes every operation reject with a new [Error] whose message
    is the string conversion of the transport error; the status of the
    answer plays no part in the second case. *)
Theorem transport_failure_is_rewrapped (op : operation) (err : error) :
  (fetch (requestURL op) = Rejected err ->
   run op = Rejected (newError (errToString err))) /\
  (forall resp,
     fetch (requestURL op) = Resolved resp ->
     text resp = Rejected err ->
     run op = Rejected (newError (errToString err))).
Proof.
  split.
  - intros Hf. apply call_rejected. rewrite pipeline_stages, Hf. reflexivity.
  - intros resp Hf Ht. apply call_rejected. rewrite pipeline_stages, Hf.
    simpl. unfold parseResponse. rewrite Ht. destruct (ok resp); reflexivity.
Qed.

(** X4.  No operation sets a time limit: while the request is unanswered,
    or the body of the answer has not arrived, the operation stays
    pending. *)
Theorem unanswered_request_stays_pending (op : operation) :
  (fetch (requestURL op) = Pending -> run op = Pending) /\
  (forall resp,
     fetch (requestURL op) = Resolved resp ->
     text resp = Pending ->
     run op = Pending).
Proof.
  split.
  - intros Hf. rewrite call_catch, pipeline_stages, Hf. reflexivity.
  - intros resp Hf Ht. rewrite call_catch, pipeline_stages, Hf.
    simpl. unfold parseResponse. rewrite Ht. destruct (ok resp); reflexivity.
Qed.

(** *** Rows that cannot be mapped *)

Lemma mapM_first_failure (f : value -> completion value)
      (pre post : list value) (row : value) (e : error) :
  Forall (fun r => exists y, f r = Normal y) pre ->
  f row = Throw e ->
  mapM f (pre ++ row :: post) = Throw e.
Proof.
  intros Hpre Hrow. induction Hpre as [|r pre (y & Hy) _ IH]; simpl.
  - rewrite Hrow; reflexivity.
  - rewrite Hy; simpl. rewrite IH; reflexivity.
Qed.

Lemma shape_first_failure (op : operation) (json : value)
      (pre post : list value) (row : value) (e : error) :
  rowsOf op json = VArr (pre ++ row :: post) ->
  Forall (fun r => exists y, rowMapper typeErrorText op r = Normal y) pre ->
  rowMapper typeErrorText op row = Throw e ->
  shape op json = Throw e.
Proof.
  intros Hrows Hpre Hrow.
  rewrite (shape_rows op json Hrows).
  rewrite mapM_first_failure with (e := e); [reflexivity | exact Hpre | exact Hrow].
Qed.

Lemma call_shape_throws (op : operation) (resp : response) (body : jsstring)
      (json : value) (e : error) :
  fetch (requestURL op) = Resolved resp ->
  ok resp = true ->
  text resp = Resolved body ->
  parseXML body = inr json ->
  shape op json = Throw e ->
  run op = Rejected (newError (errToString e)).
Proof.
  intros Hf Hok Ht Hp Hs. apply call_rejected.
  rewrite (pipeline_parsed op Hf Hok Ht Hp), Hs. reflexivity.
Qed.

(** X5.  There is no partial result: when the callback throws on a row and
    ran normally on the rows before it, the operation rejects with that
    row's error rewrapped, whatever the rows after it are. *)
Theorem first_failing_row_rejects_the_call
        (op : operation) (resp : response) (body : jsstring) (json : value)
        (pre post : list value) (row : value) (e : error) :
  fetch (requestURL op) = Resolved resp ->
  ok resp = true ->
  text resp = Resolved body ->
  parseXML body = inr json ->
  rowsOf op json = VArr (pre ++ row :: post) ->
  Forall (fun r => exists y, rowMapper typeErrorText op r = Normal y) pre ->
  rowMapper typeErrorText op row = Throw e ->
  run op = Rejected (newError (errToString e)) /\
  forall v, run op <> Resolved v.
Proof.
  intros Hf Hok Ht Hp Hrows Hpre Hrow.
  assert (H : run op = Rejected (newError (errToString e))).
  { apply call_shape_throws with (resp := resp) (body := body) (json := json);
      trivial.
    apply shape_first_failure with (pre := pre) (post := post) (row := row);
      assumption. }
  split; [exact H | intros v; rewrite H; discriminate].
Qed.

Lemma not_null_cases (v : value) :
  v <> VNull -> v = VUndefined \/ isNullish v = false.
Proof. destruct v; intros H; auto; congruence. Qed.

Ltac read_field Hnull row field :=
  let E := fresh "E" in
  destruct (@not_null_cases (getProp row field)) as [E|E];
  [ apply Hnull; cbn [sourceFields In]; tauto
  | rewrite E; reflexivity
  | rewrite (member_ok (getProp row field) (lit "0") E); cbn [bind] ].

(** A row that lacks one of the fields the callback reads makes it throw
    the [TypeError] of reading index 0 of [undefined]. *)
Lemma rowMapper_missing_field (op : operation) (row : value) :
  isNullish row = false ->
  (forall field, In field (sourceFields op) -> getProp row field <> VNull) ->
  (exists field, In field (sourceFields op) /\ getProp row field = VUndefined) ->
  rowMapper typeErrorText op row =
    Throw (typeError typeErrorText (ReadOfNullish VUndefined (lit "0"))).
Proof.
  intros Hrow Hnull (missing & Hin & Hmissing).
  destruct op; cbn [rowMapper];
    unfold listEnvios_row, tarifarEnvioCorporativo_row, getProvincias_row,
      getLocalidadesByProvincia_place, trackingPieza_row;
    rewrite ?(destructure_ok row Hrow), ?(member_ok row _ Hrow);
    cbn [bind]; cbv zeta.
  - read_field Hnull row (lit "NroProducto").
    read_field Hnull row (lit "NumeroEnvio").
    cbn [sourceFields In] in Hin.
    destruct Hin as [<-|[<-|[]]]; rewrite Hmissing in *; discriminate.
  - read_field Hnull row (lit "Tarifador").
    read_field Hnull row (lit "Precio").
    read_field Hnull row (lit "idTiposervicio").
    read_field Hnull row (lit "Ambito").
    read_field Hnull row (lit "PlazoEntrega").
    read_field Hnull row (lit "Adicional").
    read_field Hnull row (lit "Total").
    cbn [sourceFields In] in Hin.
    destruct Hin as [<-|[<-|[<-|[<-|[<-|[<-|[<-|[]]]]]]]];
      rewrite Hmissing in *; discriminate.
  - read_field Hnull row (lit "IdProvincia").
    read_field Hnull row (lit "Descripcion").
    cbn [sourceFields In] in Hin.
    destruct Hin as [<-|[<-|[]]]; rewrite Hmissing in *; discriminate.
  - read_field Hnull row (lit "Nombre").
    cbn [sourceFields In] in Hin.
    destruct Hin as [<-|[]]; rewrite Hmissing in *; discriminate.
  - read_field Hnull row (lit "NumeroEnvio").
    read_field Hnull row (lit "Descripcion_Motivo").
    read_field Hnull row (lit "Desdcripcion_Estado").
    read_field Hnull row (lit "SUC").
    read_field Hnull row (lit "fecha").
    cbn [sourceFields In] in Hin.
    destruct Hin as [<-|[<-|[<-|[<-|[<-|[]]]]]];
      rewrite Hmissing in *; discriminate.
Qed.

(** X6.  A row that lacks one of the elements the operation reads (and has
    no [null] among them) is not skipped and gets no default: if the rows
    before it are mapped normally, the operation rejects with the rewrapped
    [TypeError] of reading index 0 of [undefined]. *)
Theorem missing_field_rejects_the_call
        (op : operation) (resp : response) (body : jsstring) (json : value)
        (pre post : list value) (row : value) :
  fetch (requestURL op) = Resolved resp ->
  ok resp = true ->
  text resp = Resolved body ->
  parseXML body = inr json ->
  rowsOf op json = VArr (pre ++ row :: post) ->
  Forall (fun r => exists y, rowMapper typeErrorText op r = Normal y) pre ->
  isNullish row = false ->
  (forall field, In field (sourceFields op) -> getProp row field <> VNull) ->
  (exists field, In field (sourceFields op) /\ getProp row field = VUndefined) ->
  run op =
    Rejected (newError (errToString
      (typeError typeErrorText (ReadOfNullish VUndefined (lit "0"))))).
Proof.
  intros Hf Hok Ht Hp Hrows Hpre Hrow Hnull Hmissing.
  apply call_shape_throws with (resp := resp) (body := body) (json := json);
    trivial.
  apply shape_first_failure with (pre := pre) (post := post) (row := row);
    trivial.
  apply rowMapper_missing_field; assumption.
Qed.

(** *** When the rows are mapped *)

Lemma call_parsed_resolves_iff (op : operation) (resp : response)
      (body : jsstring) (json r : value) :
  fetch (requestURL op) = Resolved resp ->
  ok resp = true ->
  text resp = Resolved body ->
  parseXML body = inr json ->
  (run op = Resolved r <-> shape op json = Normal r).
Proof.
  intros Hf Hok Ht Hp.
  rewrite call_catch, (pipeline_parsed op Hf Hok Ht Hp).
  destruct (shape op json) as [v|e]; simpl; split; intros H;
    try discriminate; congruence.
Qed.

Lemma Forall2_map_iff (f : value -> completion value) (P : value -> Prop)
      (g : value -> value) (rows items : list value) :
  (forall row y, f row = Normal y <-> P row /\ y = g row) ->
  (Forall2 (fun row item => f row = Normal item) rows items <->
   Forall P rows /\ items = map g rows).
Proof.
  intros Hf. split.
  - induction 1 as [|row item rows items Hrow _ (IHP & IHm)]; simpl.
    + split; [constructor | reflexivity].
    + apply Hf in Hrow as (HP & ->). split; [constructor; assumption|].
      rewrite IHm; reflexivity.
  - intros (HP & ->). induction HP as [|row rows Hrow _ IH]; simpl;
      constructor; trivial.
    apply Hf; split; [exact Hrow | reflexivity].
Qed.

Lemma shape_Normal_iff (op : operation) (P : value -> Prop) (g : value -> value)
      (json r : value) :
  (forall row y, rowMapper typeErrorText op row = Normal y <-> P row /\ y = g row) ->
  (shape op json = Normal r <->
   exists rows,
     rowsOf op json = VArr rows /\ Forall P rows /\ r = VArr (map g rows)).
Proof.
  intros Hrow. split.
  - intros H. apply shape_Normal_inv in H as (rows & items & Hrows & -> & Hall).
    apply (@Forall2_map_iff _ P g rows items Hrow) in Hall as (HP & ->).
    exists rows; repeat split; assumption.
  - intros (rows & Hrows & HP & ->).
    rewrite (shape_rows op json Hrows).
    rewrite (@mapM_Normal_intro (rowMapper typeErrorText op) rows (map g rows));
      [reflexivity|].
    apply (@Forall2_map_iff _ P g rows (map g rows) Hrow);
      split; [exact HP | reflexivity].
Qed.

Ltac invert_member H :=
  let x := fresh "x" in
  let Hm := fresh "Hm" in
  let Hn := fresh "Hn" in
  apply bind_Normal_inv in H as (x & Hm & H);
  apply member_Normal_inv in Hm as (Hn & ->).

Ltac invert_destructure H :=
  let x := fresh "x" in
  let Hd := fresh "Hd" in
  let Hn := fresh "Hn" in
  apply bind_Normal_inv in H as (x & Hd & H);
  apply destructure_Normal_inv in Hd as (Hn & ->);
  cbv zeta in H.

Ltac split_fields H :=
  repeat match type of H with
         | Forall _ (_ :: _) =>
             let H1 := fresh "Hfield" in
             apply Forall_cons_iff in H as (H1 & H)
         end.

Ltac read_fields :=
  rewrite ?destructure_ok by assumption; cbn [bind]; cbv zeta;
  repeat (rewrite member_ok by assumption; cbn [bind]).

Lemma listEnvios_row_iff (row y : value) :
  listEnvios_row typeErrorText row = Normal y <->
  rowOk [lit "NroProducto"; lit "NumeroEnvio"] row /\
  y = VObj [(lit "nroProducto", firstValue row (lit "NroProducto"));
            (lit "numeroEnvio", firstValue row (lit "NumeroEnvio"))].
Proof.
  unfold listEnvios_row, rowOk, firstValue. split.
  - intros H. do 4 invert_member H. injection H as <-.
    repeat split; trivial. repeat constructor; assumption.
  - intros ((Hrow & Hfields) & ->). split_fields Hfields.
    read_fields. reflexivity.
Qed.

Lemma tarifarEnvioCorporativo_row_iff (row y : value) :
  tarifarEnvioCorporativo_row typeErrorText row = Normal y <->
  rowOk [lit "Tarifador"; lit "Precio"; lit "idTiposervicio"; lit "Ambito";
         lit "PlazoEntrega"; lit "Adicional"; lit "Total"] row /\
  y = VObj [(lit "tarifador", firstValue row (lit "Tarifador"));
            (lit "precio", firstValue row (lit "Precio"));
            (lit "idTiposervicio", firstValue row (lit "idTiposervicio"));
            (lit "ambito", firstValue row (lit "Ambito"));
            (lit "plazoEntrega", firstValue row (lit "PlazoEntrega"));
            (lit "adicional", firstValue row (lit "Adicional"));
            (lit "total", firstValue row (lit "Total"))].
Proof.
  unfold tarifarEnvioCorporativo_row, rowOk, firstValue. split.
  - intros H. invert_destructure H. do 7 invert_member H. injection H as <-.
    repeat split; trivial. repeat constructor; assumption.
  - intros ((Hrow & Hfields) & ->). split_fields Hfields.
    read_fields. reflexivity.
Qed.

Lemma trackingPieza_row_iff (row y : value) :
  trackingPieza_row typeErrorText row = Normal y <->
  rowOk [lit "NumeroEnvio"; lit "Descripcion_Motivo"; lit "Desdcripcion_Estado";
         lit "SUC"; lit "fecha"] row /\
  y = VObj [(lit "numeroEnvio", firstValue row (lit "NumeroEnvio"));
            (lit "descripcion_Motivo", firstValue row (lit "Descripcion_Motivo"));
            (lit "desdcripcion_Estado", firstValue row (lit "Desdcripcion_Estado"));
            (lit "suc", firstValue row (lit "SUC"));
            (lit "fecha", firstValue row (lit "fecha"))].
Proof.
  unfold trackingPieza_row, rowOk, firstValue. split.
  - intros H. invert_destructure H. do 5 invert_member H. injection H as <-.
    repeat split; trivial. repeat constructor; assumption.
  - intros ((Hrow & Hfields) & ->). split_fields Hfields.
    read_fields. reflexivity.
Qed.

(** X7.  With a parsed answer, [listEnvios] resolves exactly when the
    extractor gives an array whose rows all have a [NroProducto] and a
    [NumeroEnvio]; the result is then the array of the records
    [{ nroProducto, numeroEnvio }] of the first values, one per row and in
    the order of the rows.  Other elements of a row are dropped. *)
Theorem listEnvios_resolves_iff
        (a : ListEnviosArgs.t) (resp : response) (body : jsstring) (json r : value) :
  fetch (listEnvios_request a) = Resolved resp ->
  ok resp = true ->
  text resp = Resolved body ->
  parseXML body = inr json ->
  (listEnvios fetch parseXML typeErrorText a = Resolved r <->
   exists rows,
     getDataFromResponse json = VArr rows /\
     Forall (rowOk [lit "NroProducto"; lit "NumeroEnvio"]) rows /\
     r = VArr (map (fun row =>
                      VObj [(lit "nroProducto", firstValue row (lit "NroProducto"));
                            (lit "numeroEnvio", firstValue row (lit "NumeroEnvio"))])
                   rows)).
Proof.
  intros Hf Hok Ht Hp.
  change (listEnvios fetch parseXML typeErrorText a) with (run (ListEnvios a)).
  rewrite (@call_parsed_resolves_iff (ListEnvios a) resp body json r Hf Hok Ht Hp).
  exact (@shape_Normal_iff (ListEnvios a) _ _ json r listEnvios_row_iff).
Qed.

(** X8.  With a parsed answer, [tarifarEnvioCorporativo] resolves exactly
    when the extractor gives an array whose rows all have the seven elements
    [Tarifador], [Precio], [idTiposervicio], [Ambito], [PlazoEntrega],
    [Adicional] and [Total]; the result is then the array of the
    seven-field records of the first values, one per row and in order. *)
Theorem tarifarEnvioCorporativo_resolves_iff
        (a : TarifarArgs.t) (resp : response) (body : jsstring) (json r : value) :
  fetch (tarifarEnvioCorporativo_request a) = Resolved resp ->
  ok resp = true ->
  text resp = Resolved body ->
  parseXML body = inr json ->
  (tarifarEnvioCorporativo fetch parseXML typeErrorText a = Resolved r <->
   exists rows,
     getDataFromResponse json = VArr rows /\
     Forall (rowOk [lit "Tarifador"; lit "Precio"; lit "idTiposervicio";
                    lit "Ambito"; lit "PlazoEntrega"; lit "Adicional";
                    lit "Total"]) rows /\
     r = VArr (map (fun row =>
                      VObj [(lit "tarifador", firstValue row (lit "Tarifador"));
                            (lit "precio", firstValue row (lit "Precio"));
                            (lit "idTiposervicio",
                             firstValue row (lit "idTiposervicio"));
                            (lit "ambito", firstValue row (lit "Ambito"));
                            (lit "plazoEntrega", firstValue row (lit "PlazoEntrega"));
                            (lit "adicional", firstValue row (lit "Adicional"));
                            (lit "total", firstValue row (lit "Total"))])
                   rows)).
Proof.
  intros Hf Hok Ht Hp.
  change (tarifarEnvioCorporativo fetch parseXML typeErrorText a)
    with (run (TarifarEnvioCorporativo a)).
  rewrite (@call_parsed_resolves_iff (TarifarEnvioCorporativo a) resp body json r Hf Hok Ht Hp).
  exact (@shape_Normal_iff (TarifarEnvioCorporativo a) _ _ json r
           tarifarEnvioCorporativo_row_iff).
Qed.

(** X9.  With a parsed answer, [trackingPieza] resolves exactly when the
    extractor gives an array whose rows all have [NumeroEnvio],
    [Descripcion_Motivo], [Desdcripcion_Estado], [SUC] and [fecha]; the
    result is then the array of the five-field records of the first values,
    the state under the name [desdcripcion_Estado], spelled as the service
    spells it. *)
Theorem trackingPieza_resolves_iff
        (a : TrackingArgs.t) (resp : response) (body : jsstring) (json r : value) :
  fetch (trackingPieza_request a) = Resolved resp ->
  ok resp = true ->
  text resp = Resolved body ->
  parseXML body = inr json ->
  (trackingPieza fetch parseXML typeErrorText a = Resolved r <->
   exists rows,
     getDataFromResponse json = VArr rows /\
     Forall (rowOk [lit "NumeroEnvio"; lit "Descripcion_Motivo";
                    lit "Desdcripcion_Estado"; lit "SUC"; lit "fecha"]) rows /\
     r = VArr (map (fun row =>
                      VObj [(lit "numeroEnvio", firstValue row (lit "NumeroEnvio"));
                            (lit "descripcion_Motivo",
                             firstValue row (lit "Descripcion_Motivo"));
                            (lit "desdcripcion_Estado",
                             firstValue row (lit "Desdcripcion_Estado"));
                            (lit "suc", firstValue row (lit "SUC"));
                            (lit "fecha", firstValue row (lit "fecha"))])
                   rows)).
Proof.
  intros Hf Hok Ht Hp.
  change (trackingPieza fetch parseXML typeErrorText a)
    with (run (TrackingPieza a)).
  rewrite (@call_parsed_resolves_iff (TrackingPieza a) resp body json r Hf Hok Ht Hp).
  exact (@shape_Normal_iff (TrackingPieza a) _ _ json r trackingPieza_row_iff).
Qed.

Lemma callTrim_text_only (v : value) :
  isNullish v = false ->
  (forall d, v <> VStr d) ->
  callTrim typeErrorText v =
    Throw (typeError typeErrorText (NotAFunction v (lit "trim"))).
Proof.
  destruct v as [| |d|items|props]; simpl; intros Hn Hs;
    try discriminate; try reflexivity.
  elim (Hs d); reflexivity.
Qed.

Lemma getProvincias_row_iff (row y : value) :
  getProvincias_row typeErrorText row = Normal y <->
  rowOk [lit "IdProvincia"; lit "Descripcion"] row /\
  exists d,
    firstValue row (lit "Descripcion") = VStr d /\
    y = VObj [(lit "idProvincia", firstValue row (lit "IdProvincia"));
              (lit "descripcion", VStr (trim d))].
Proof.
  unfold getProvincias_row, rowOk, firstValue. split.
  - intros H. invert_destructure H. do 2 invert_member H.
    apply bind_Normal_inv in H as (t & Htrim & H).
    apply callTrim_Normal_inv in Htrim as (d & Hd & ->).
    injection H as <-. split.
    + split; trivial. repeat constructor; assumption.
    + exists d; split; [exact Hd | reflexivity].
  - intros ((Hrow & Hfields) & d & Hd & ->). split_fields Hfields.
    read_fields. rewrite Hd. reflexivity.
Qed.

(** X10.  [getProvincias] calls [trim] on the first value of [Descripcion]
    without checking that it is a text: a row where that value is an object
    or an array (an element with attributes or children) makes the
    operation reject with the rewrapped [TypeError] of calling something
    that is not a function, if the rows before it are mapped normally. *)
Theorem getProvincias_rejects_non_text_descripcion
        (resp : response) (body : jsstring) (json : value)
        (pre post : list value) (row v : value) :
  fetch getProvincias_request = Resolved resp ->
  ok resp = true ->
  text resp = Resolved body ->
  parseXML body = inr json ->
  getDataFromResponse json = VArr (pre ++ row :: post) ->
  Forall (fun r => exists y, getProvincias_row typeErrorText r = Normal y) pre ->
  rowOk [lit "IdProvincia"; lit "Descripcion"] row ->
  firstValue row (lit "Descripcion") = v ->
  isNullish v = false ->
  (forall d, v <> VStr d) ->
  getProvincias fetch parseXML typeErrorText =
    Rejected (newError (errToString
      (typeError typeErrorText (NotAFunction v (lit "trim"))))).
Proof.
  intros Hf Hok Ht Hp Hrows Hpre (Hrow & Hfields) Hv Hn Hs.
  change (getProvincias fetch parseXML typeErrorText) with (run GetProvincias).
  apply call_shape_throws with (resp := resp) (body := body) (json := json);
    trivial.
  apply shape_first_failure with (pre := pre) (post := post) (row := row);
    trivial.
  cbn [rowMapper]. unfold getProvincias_row. unfold firstValue in Hv.
  split_fields Hfields. read_fields. rewrite Hv.
  rewrite (callTrim_text_only Hn Hs). reflexivity.
Qed.

(** X11.  With a parsed answer, [getProvincias] resolves exactly when the
    extractor gives an array whose rows all have [IdProvincia] and
    [Descripcion] and the first value of every [Descripcion] is a text; the
    records are then [{ idProvincia, descripcion }] with the description
    trimmed, one per row and in order. *)
Theorem getProvincias_resolves_iff
        (resp : response) (body : jsstring) (json r : value) :
  fetch getProvincias_request = Resolved resp ->
  ok resp = true ->
  text resp = Resolved body ->
  parseXML body = inr json ->
  (getProvincias fetch parseXML typeErrorText = Resolved r <->
   exists rows records,
     getDataFromResponse json = VArr rows /\
     r = VArr records /\
     Forall2
       (fun row record =>
          rowOk [lit "IdProvincia"; lit "Descripcion"] row /\
          exists d,
            firstValue row (lit "Descripcion") = VStr d /\
            record =
              VObj [(lit "idProvincia", firstValue row (lit "IdProvincia"));
                    (lit "descripcion", VStr (trim d))])
       rows records).
Proof.
  intros Hf Hok Ht Hp.
  change (getProvincias fetch parseXML typeErrorText) with (run GetProvincias).
  rewrite (@call_parsed_resolves_iff GetProvincias resp body json r Hf Hok Ht Hp).
  split.
  - intros H. apply shape_Normal_inv in H as (rows & records & Hrows & -> & Hall).
    exists rows, records; repeat split; trivial.
    revert Hall; apply Forall2_impl. intros row record.
    apply getProvincias_row_iff.
  - intros (rows & records & Hrows & -> & Hall).
    rewrite (shape_rows GetProvincias json Hrows).
    rewrite (@mapM_Normal_intro (rowMapper typeErrorText GetProvincias) rows records);
      [reflexivity|].
    revert Hall; apply Forall2_impl. intros row record.
    apply getProvincias_row_iff.
Qed.

(** X12.  The arguments are copied into the query string without any
    escaping, so the request does not determine them: a [cuit] that
    contains [&fechaDesde=] gives the same request, and the same outcome, as
    another call with different arguments. *)
Theorem listEnvios_request_is_not_escaped (c x d h : jsstring) :
  let a1 := {| ListEnviosArgs.cuit := c ++ lit "&fechaDesde=" ++ x;
               ListEnviosArgs.fechaDesde := d;
               ListEnviosArgs.fechaHasta := h |} in
  let a2 := {| ListEnviosArgs.cuit := c;
               ListEnviosArgs.fechaDesde := x ++ lit "&fechaDesde=" ++ d;
               ListEnviosArgs.fechaHasta := h |} in
  a1 <> a2 /\
  listEnvios_request a1 = listEnvios_request a2 /\
  listEnvios fetch parseXML typeErrorText a1 =
    listEnvios fetch parseXML typeErrorText a2.
Proof.
  intros a1 a2.
  assert (Hreq : listEnvios_request a1 = listEnvios_request a2).
  { unfold listEnvios_request, a1, a2; cbn [ListEnviosArgs.cuit
      ListEnviosArgs.fechaDesde ListEnviosArgs.fechaHasta]; cbv zeta.
    rewrite <- !app_assoc. reflexivity. }
  split; [|split; [exact Hreq|]].
  - intros E. apply (f_equal ListEnviosArgs.cuit) in E.
    cbn [a1 a2 ListEnviosArgs.cuit] in E.
    apply (f_equal (@List.length N)) in E.
    rewrite !length_app in E. cbn [lit] in E. simpl in E. lia.
  - unfold listEnvios, listEnvios_pipeline. rewrite Hreq. reflexivity.
Qed.

Lemma getLocalidadesByProvincia_place_iff (place y : value) :
  getLocalidadesByProvincia_place typeErrorText place = Normal y <->
  rowOk [lit "Nombre"] place /\ y = firstValue place (lit "Nombre").
Proof.
  unfold getLocalidadesByProvincia_place, rowOk, firstValue. split.
  - intros H. invert_member H. apply member_Normal_inv in H as (Hn' & ->).
    repeat split; trivial. repeat constructor; assumption.
  - intros ((Hrow & Hfields) & ->). split_fields Hfields.
    read_fields. reflexivity.
Qed.

(** X13.  With a parsed answer, [getLocalidadesByProvincia] resolves exactly
    when [Localidades.Provincia] is an array whose elements all have a
    [Nombre]; the result is then the array of the first values of [Nombre],
    handed on as they are, text or not, in the order of the elements. *)
Theorem getLocalidadesByProvincia_resolves_iff
        (a : LocalidadesArgs.t) (resp : response) (body : jsstring) (json r : value) :
  fetch (getLocalidadesByProvincia_request a) = Resolved resp ->
  ok resp = true ->
  text resp = Resolved body ->
  parseXML body = inr json ->
  (getLocalidadesByProvincia fetch parseXML typeErrorText a = Resolved r <->
   exists places,
     getProp (getProp json (lit "Localidades")) (lit "Provincia") = VArr places /\
     Forall (rowOk [lit "Nombre"]) places /\
     r = VArr (map (fun place => firstValue place (lit "Nombre")) places)).
Proof.
  intros Hf Hok Ht Hp.
  change (getLocalidadesByProvincia fetch parseXML typeErrorText a)
    with (run (GetLocalidadesByProvincia a)).
  rewrite (@call_parsed_resolves_iff (GetLocalidadesByProvincia a)
             resp body json r Hf Hok Ht Hp).
  exact (@shape_Normal_iff (GetLocalidadesByProvincia a) _ _ json r
           getLocalidadesByProvincia_place_iff).
Qed.

End Properties.

(** ** The properties on sample inputs *)

(** C1, the claim as stated fails: after a 500 answer with body [boom], the
    error [listEnvios] rejects with has the message [Error: boom], not
    [boom]. *)
Lemma failure_status_message_is_not_the_body :
  let resp := {| status := 500; text := Resolved (lit "boom") |} in
  answering 500 (lit "boom") (requestURL (ListEnvios sampleEnvios)) = Resolved resp /\
  ok resp = false /\
  text resp = Resolved (lit "boom") /\
  call (answering 500 (lit "boom")) (parsingTo VNull) sampleText (ListEnvios sampleEnvios)
    = Rejected (newError (lit "Error: boom")) /\
  ~ (exists e,
       call (answering 500 (lit "boom")) (parsingTo VNull) sampleText
            (ListEnvios sampleEnvios) = Rejected e /\
       message e = lit "boom").
Proof.
  repeat split. intros (e & He & Hm).
  vm_compute in He. injection He as <-. vm_compute in Hm. discriminate.
Qed.

Lemma failure_status_witness :
  call (answering 500 (lit "boom")) (parsingTo VNull) sampleText GetProvincias
    = Rejected (newError (lit "Error: boom")).
Proof.
  apply (proj2 (@failure_status_rejects_with_prefixed_body
                  (answering 500 (lit "boom")) (parsingTo VNull) sampleText GetProvincias
                  {| status := 500; text := Resolved (lit "boom") |} (lit "boom")
                  eq_refl eq_refl eq_refl)).
Defined.

(** C2 on the failing input: the answer to [getLocalidadesByProvincia] is a
    well-formed document without any [Provincia] element, and the operation
    rejects; the four other operations resolve to the empty array on a
    document without rows. *)
Theorem getLocalidadesByProvincia_no_rows_rejects :
  (forall typeErrorText,
     call (answering 200 (lit "<Localidades/>")) (parsingTo noLocalidadesDoc)
          typeErrorText (GetLocalidadesByProvincia sampleLocalidades)
       = Rejected (newError (errToString
           (typeError typeErrorText (ReadOfNullish VUndefined (lit "map")))))) /\
  (forall typeErrorText op,
     usesFieldExtractor op = true ->
     call (answering 200 []) (parsingTo noRowsDoc) typeErrorText op
       = Resolved (VArr [])).
Proof.
  split; [reflexivity|].
  intros typeErrorText op Hop; destruct op; try discriminate; reflexivity.
Qed.


(** C8, the claim as stated fails: with a [Nombre] that carries an
    attribute, [getLocalidadesByProvincia] resolves to an array whose second
    entry is an object, so the result is not an array of strings. *)
Lemma getLocalidadesByProvincia_can_return_an_object :
  getLocalidadesByProvincia (answering 200 []) (parsingTo attributedLocalidadesDoc)
                            sampleText sampleLocalidades
    = Resolved (VArr [VStr (lit "AZUL"); attributedNombre]) /\
  ~ (exists names,
       VArr [VStr (lit "AZUL"); attributedNombre] = VArr (map VStr names)).
Proof.
  split; [reflexivity|].
  intros ([|n1 [|n2 names]] & H); simpl in H; discriminate.
Qed.


Lemma every_failure_witness :
  call (answering 200 []) (parsingTo brokenEnviosDoc) sampleText (ListEnvios sampleEnvios)
    = Rejected (newError (lit "TypeError: Cannot read property '0' of undefined")).
Proof.
  exact (proj2 (proj2
    (proj2 (proj2 (@every_failure_is_rewrapped
                     (answering 200 []) (parsingTo brokenEnviosDoc) sampleText
                     (ListEnvios sampleEnvios)))
       {| status := 200; text := Resolved [] |} [] eq_refl eq_refl))
    brokenEnviosDoc
    (typeError sampleText (ReadOfNullish VUndefined (lit "0")))
    eq_refl eq_refl eq_refl).
Defined.

Lemma listEnvios_two_rows_witness :
  listEnvios (answering 200 []) (parsingTo enviosDoc) sampleText sampleEnvios
    = Resolved
        (VArr [VObj [(lit "nroProducto", VStr (lit "1234"));
                     (lit "numeroEnvio", VStr (lit "5678"))];
               VObj [(lit "nroProducto", VStr (lit "4321"));
                     (lit "numeroEnvio", VStr (lit "8765"))]]).
Proof.
  apply (@listEnvios_two_rows
           (answering 200 []) (parsingTo enviosDoc) sampleText sampleEnvios
           {| status := 200; text := Resolved [] |} [] enviosDoc
           (envioRow "1234" "5678") (envioRow "4321" "8765")
           (VStr (lit "1234")) (VStr (lit "5678"))
           (VStr (lit "4321")) (VStr (lit "8765")) [] [] [] []);
    try reflexivity.
  apply encodesTable_diffgramDoc.
Defined.

Lemma getDataFromResponse_missing_segment_witness :
  segmentMissing noRowsDoc 6 /\ getDataFromResponse noRowsDoc = VArr [].
Proof.
  assert (H : segmentMissing noRowsDoc 6).
  { split; [simpl; lia | reflexivity]. }
  split; [exact H|].
  exact (@getDataFromResponse_missing_segment noRowsDoc 6 eq_refl H).
Defined.

Example trim_sample : trim (lit "  BUENOS  AIRES ") = lit "BUENOS  AIRES".
Proof. reflexivity. Qed.

Lemma getProvincias_trims_descripcion_witness :
  let r :=
    VArr [VObj [(lit "idProvincia", VStr (lit " 1 "));
                (lit "descripcion", VStr (lit "BUENOS  AIRES"))];
          VObj [(lit "idProvincia", VStr (lit "2"));
                (lit "descripcion", VStr (lit "CHACO"))]] in
  getProvincias (answering 200 []) (parsingTo provinciasDoc) sampleText = Resolved r /\
  exists rows records,
    getDataFromResponse provinciasDoc = VArr rows /\
    r = VArr records /\
    Forall2
      (fun row record =>
         exists d,
           getProp (getProp row (lit "Descripcion")) (lit "0") = VStr d /\
           isTrimOf d (trim d) /\
           record =
             VObj [(lit "idProvincia",
                    getProp (getProp row (lit "IdProvincia")) (lit "0"));
                   (lit "descripcion", VStr (trim d))])
      rows records.
Proof.
  intros r. split; [reflexivity|].
  apply (@getProvincias_trims_descripcion
           (answering 200 []) (parsingTo provinciasDoc) sampleText
           {| status := 200; text := Resolved [] |} [] provinciasDoc r);
    reflexivity.
Defined.

Lemma getLocalidadesByProvincia_returns_first_values_witness :
  getLocalidadesByProvincia (answering 200 []) (parsingTo localidadesDoc) sampleText
                            sampleLocalidades
    = Resolved (VArr [VStr (lit "AZUL"); VStr (lit "TANDIL")]) /\
  exists places,
    getProp (getProp attributedLocalidadesDoc (lit "Localidades")) (lit "Provincia")
      = VArr places /\
    VArr [VStr (lit "AZUL"); attributedNombre] =
      VArr (map (fun place => getProp (getProp place (lit "Nombre")) (lit "0"))
                places) /\
    ((exists names,
        VArr [VStr (lit "AZUL"); attributedNombre] = VArr (map VStr names)) <->
     Forall (fun place =>
               exists nm,
                 getProp (getProp place (lit "Nombre")) (lit "0") = VStr nm)
            places).
Proof.
  split.
  - apply (proj1 (@getLocalidadesByProvincia_returns_first_values
                    (answering 200 []) (parsingTo localidadesDoc) sampleText
                    sampleLocalidades
                    {| status := 200; text := Resolved [] |} [] localidadesDoc
                    eq_refl eq_refl eq_refl eq_refl)
                 [VObj [(lit "Nombre", VArr [VStr (lit "AZUL")])];
                  VObj [(lit "Nombre", VArr [VStr (lit "TANDIL")])]]
                 [lit "AZUL"; lit "TANDIL"]).
    + reflexivity.
    + repeat constructor.
  - apply (proj2 (@getLocalidadesByProvincia_returns_first_values
                    (answering 200 []) (parsingTo attributedLocalidadesDoc)
                    sampleText sampleLocalidades
                    {| status := 200; text := Resolved [] |} []
                    attributedLocalidadesDoc
                    eq_refl eq_refl eq_refl eq_refl)
                 (VArr [VStr (lit "AZUL"); attributedNombre])).
    reflexivity.
Defined.

Lemma getLocalidadesByProvincia_missing_path_witness :
  getProp (getProp noLocalidadesDoc (lit "Localidades")) (lit "Provincia") = VUndefined /\
  getLocalidadesByProvincia (answering 200 (lit "<Localidades/>"))
      (parsingTo noLocalidadesDoc) sampleText sampleLocalidades
    <> Resolved (VArr []).
Proof.
  split; [reflexivity|].
  apply (@getLocalidadesByProvincia_missing_path_rejects
           (answering 200 (lit "<Localidades/>")) (parsingTo noLocalidadesDoc)
           sampleText sampleLocalidades
           {| status := 200; text := Resolved (lit "<Localidades/>") |}
           (lit "<Localidades/>") noLocalidadesDoc
           eq_refl eq_refl eq_refl eq_refl (or_intror eq_refl)).
Defined.

(** *** Further sample runs *)

Lemma resolved_value_is_array_of_rows_witness :
  exists rows items,
    rowsOf (TarifarEnvioCorporativo sampleTarifar) (diffgramDoc [tarifaRow])
      = VArr rows /\
    VArr [tarifaRecord] = VArr items /\
    List.length items = List.length rows /\
    Forall2 (fun row item =>
               rowMapper sampleText (TarifarEnvioCorporativo sampleTarifar) row
                 = Normal item)
            rows items.
Proof.
  apply (@resolved_value_is_array_of_rows
           (answering 200 []) (parsingTo (diffgramDoc [tarifaRow])) sampleText
           (TarifarEnvioCorporativo sampleTarifar)
           {| status := 200; text := Resolved [] |} []
           (diffgramDoc [tarifaRow]) (VArr [tarifaRecord]));
    reflexivity.
Defined.

Lemma transport_failure_witness :
  let err := {| name := lit "FetchError"; message := lit "socket hang up" |} in
  call (unreachable err) (parsingTo VNull) sampleText GetProvincias
    = Rejected (newError (lit "FetchError: socket hang up")) /\
  call (breakingOff 200 err) (parsingTo VNull) sampleText GetProvincias
    = Rejected (newError (lit "FetchError: socket hang up")).
Proof.
  intros err. split.
  - apply (proj1 (@transport_failure_is_rewrapped
                    (unreachable err) (parsingTo VNull) sampleText GetProvincias err)).
    reflexivity.
  - apply (proj2 (@transport_failure_is_rewrapped
                    (breakingOff 200 err) (parsingTo VNull) sampleText GetProvincias err)
                 {| status := 200; text := Rejected err |});
      reflexivity.
Defined.

Lemma unanswered_request_witness :
  call silent (parsingTo VNull) sampleText (TrackingPieza sampleTracking) = Pending.
Proof.
  apply (proj1 (@unanswered_request_stays_pending
                  silent (parsingTo VNull) sampleText (TrackingPieza sampleTracking))).
  reflexivity.
Defined.

Lemma first_failing_row_witness :
  call (answering 200 []) (parsingTo partlyBrokenEnviosDoc) sampleText
       (ListEnvios sampleEnvios)
    = Rejected (newError (lit "TypeError: Cannot read property '0' of undefined")).
Proof.
  refine (proj1 (@first_failing_row_rejects_the_call
                  (answering 200 []) (parsingTo partlyBrokenEnviosDoc) sampleText
                  (ListEnvios sampleEnvios)
                  {| status := 200; text := Resolved [] |} []
                  partlyBrokenEnviosDoc
                  [envioRow "1234" "5678"] [envioRow "1111" "2222"]
                  (VObj [(lit "NroProducto", VArr [VStr (lit "4321")])])
                  (typeError sampleText (ReadOfNullish VUndefined (lit "0")))
                  eq_refl eq_refl eq_refl eq_refl eq_refl _ eq_refl)).
  constructor; [|constructor]. eexists; reflexivity.
Defined.

Lemma missing_field_witness :
  call (answering 200 []) (parsingTo partlyBrokenEnviosDoc) sampleText
       (ListEnvios sampleEnvios)
    = Rejected (newError (lit "TypeError: Cannot read property '0' of undefined")).
Proof.
  apply (@missing_field_rejects_the_call
           (answering 200 []) (parsingTo partlyBrokenEnviosDoc) sampleText
           (ListEnvios sampleEnvios)
           {| status := 200; text := Resolved [] |} []
           partlyBrokenEnviosDoc
           [envioRow "1234" "5678"] [envioRow "1111" "2222"]
           (VObj [(lit "NroProducto", VArr [VStr (lit "4321")])]));
    try reflexivity.
  - constructor; [|constructor]. eexists; reflexivity.
  - intros field [<-|[<-|[]]]; vm_compute; discriminate.
  - exists (lit "NumeroEnvio"); split; [right; left; reflexivity | reflexivity].
Defined.

Lemma listEnvios_resolves_witness :
  listEnvios (answering 200 []) (parsingTo enviosDoc) sampleText sampleEnvios
    = Resolved
        (VArr [VObj [(lit "nroProducto", VStr (lit "1234"));
                     (lit "numeroEnvio", VStr (lit "5678"))];
               VObj [(lit "nroProducto", VStr (lit "4321"));
                     (lit "numeroEnvio", VStr (lit "8765"))]]).
Proof.
  apply (proj2 (@listEnvios_resolves_iff
                  (answering 200 []) (parsingTo enviosDoc) sampleText sampleEnvios
                  {| status := 200; text := Resolved [] |} [] enviosDoc _
                  eq_refl eq_refl eq_refl eq_refl)).
  exists [envioRow "1234" "5678"; envioRow "4321" "8765"].
  repeat split; repeat constructor.
Defined.

Lemma tarifarEnvioCorporativo_resolves_witness :
  tarifarEnvioCorporativo (answering 200 []) (parsingTo (diffgramDoc [tarifaRow]))
                          sampleText sampleTarifar
    = Resolved (VArr [tarifaRecord]).
Proof.
  apply (proj2 (@tarifarEnvioCorporativo_resolves_iff
                  (answering 200 []) (parsingTo (diffgramDoc [tarifaRow])) sampleText
                  sampleTarifar
                  {| status := 200; text := Resolved [] |} []
                  (diffgramDoc [tarifaRow]) _
                  eq_refl eq_refl eq_refl eq_refl)).
  exists [tarifaRow]. repeat split; repeat constructor.
Defined.

Lemma trackingPieza_resolves_witness :
  trackingPieza (answering 200 [])
                (parsingTo (diffgramDoc [trackingRow "En viaje"; trackingRow "Entregado"]))
                sampleText sampleTracking
    = Resolved (VArr [trackingRecord "En viaje"; trackingRecord "Entregado"]).
Proof.
  apply (proj2 (@trackingPieza_resolves_iff
                  (answering 200 [])
                  (parsingTo (diffgramDoc [trackingRow "En viaje";
                                           trackingRow "Entregado"]))
                  sampleText sampleTracking
                  {| status := 200; text := Resolved [] |} []
                  (diffgramDoc [trackingRow "En viaje"; trackingRow "Entregado"]) _
                  eq_refl eq_refl eq_refl eq_refl)).
  exists [trackingRow "En viaje"; trackingRow "Entregado"].
  repeat split; repeat constructor.
Defined.

Lemma getProvincias_non_text_witness :
  getProvincias (answering 200 []) (parsingTo attributedProvinciasDoc) sampleText
    = Rejected (newError (errToString
        (typeError sampleText (NotAFunction attributedDescripcion (lit "trim"))))).
Proof.
  apply (@getProvincias_rejects_non_text_descripcion
           (answering 200 []) (parsingTo attributedProvinciasDoc) sampleText
           {| status := 200; text := Resolved [] |} []
           attributedProvinciasDoc
           [provinciaRow "1" "BUENOS AIRES"] [provinciaRow "3" "CORDOBA"]
           (VObj [(lit "IdProvincia", VArr [VStr (lit "2")]);
                  (lit "Descripcion", VArr [attributedDescripcion])])
           attributedDescripcion);
    try reflexivity.
  - constructor; [|constructor]. eexists; reflexivity.
  - split; [reflexivity | repeat constructor].
  - intros d; discriminate.
Defined.

Lemma getProvincias_resolves_witness :
  getProvincias (answering 200 []) (parsingTo provinciasDoc) sampleText
    = Resolved
        (VArr [VObj [(lit "idProvincia", VStr (lit " 1 "));
                     (lit "descripcion", VStr (lit "BUENOS  AIRES"))];
               VObj [(lit "idProvincia", VStr (lit "2"));
                     (lit "descripcion", VStr (lit "CHACO"))]]).
Proof.
  apply (proj2 (@getProvincias_resolves_iff
                  (answering 200 []) (parsingTo provinciasDoc) sampleText
                  {| status := 200; text := Resolved [] |} [] provinciasDoc _
                  eq_refl eq_refl eq_refl eq_refl)).
  exists [provinciaRow " 1 " "  BUENOS  AIRES "; provinciaRow "2" "CHACO"].
  eexists; repeat split.
  constructor; [|constructor; [|constructor]].
  - split; [split; [reflexivity | repeat constructor]|].
    exists (lit "  BUENOS  AIRES "); split; reflexivity.
  - split; [split; [reflexivity | repeat constructor]|].
    exists (lit "CHACO"); split; reflexivity.
Defined.

Lemma getLocalidadesByProvincia_resolves_witness :
  getLocalidadesByProvincia (answering 200 []) (parsingTo localidadesDoc) sampleText
                            sampleLocalidades
    = Resolved (VArr [VStr (lit "AZUL"); VStr (lit "TANDIL")]).
Proof.
  apply (proj2 (@getLocalidadesByProvincia_resolves_iff
                  (answering 200 []) (parsingTo localidadesDoc) sampleText
                  sampleLocalidades
                  {| status := 200; text := Resolved [] |} [] localidadesDoc _
                  eq_refl eq_refl eq_refl eq_refl)).
  exists [VObj [(lit "Nombre", VArr [VStr (lit "AZUL")])];
          VObj [(lit "Nombre", VArr [VStr (lit "TANDIL")])]].
  repeat split; repeat constructor.
Defined.
